(** * resolve-dependencies: the node loader ([src/node-loader.ts])

    A shallow embedding of [resolveSync], [resolve], [expand] and [load],
    together with the properties of the loader that were checked against
    the code.

    The external collaborators of the loader (the enhanced-resolve
    resolvers, the file system, globby, the static parser and the helpers
    of [./file]) are deterministic oracles over a fixed file-system
    snapshot.  JavaScript objects used as dictionaries are finite maps. *)

From Stdlib Require Import String Ascii ZArith List Bool Lia.
From stdpp Require Import gmap strings list fin_maps.
Import ListNotations.

Local Open Scope string_scope.

(** ** JavaScript strings *)

Module Js.

(** Truthiness of a string: only the empty string is falsy. *)
Definition truthy (s : string) : bool :=
  match s with
  | EmptyString => false
  | String _ _ => true
  end.

(** [s.startsWith(p)] *)
Definition startsWith (s p : string) : bool := String.prefix p s.

(** [s.endsWith(p)] *)
Definition endsWith (s p : string) : bool :=
  (String.length p <=? String.length s)%nat
  && String.eqb (substring (String.length s - String.length p) (String.length p) s) p.

Definition quote : string := String (ascii_of_nat 34) EmptyString.
Definition newline : string := String (ascii_of_nat 10) EmptyString.

(** A thrown [Error]: the loader reads [message] and [stack]. *)
Record Error : Type := MkError { message : string; stack : string }.

End Js.

(** ** Node's [path] module, POSIX flavour *)

Module Path.

Definition slash : ascii := ascii_of_nat 47.

(** The pieces of a path between its separators, empty pieces included. *)
Fixpoint split (s : string) : list string :=
  match s with
  | EmptyString => [EmptyString]
  | String c rest =>
      if Ascii.eqb c slash then EmptyString :: split rest
      else match split rest with
           | piece :: pieces => String c piece :: pieces
           | [] => [String c EmptyString]
           end
  end.

Fixpoint joinWith (pieces : list string) : string :=
  match pieces with
  | [] => EmptyString
  | [piece] => piece
  | piece :: rest => piece +:+ "/" +:+ joinWith rest
  end.

(** One step of [normalizeString]: [stack] holds the kept segments,
    innermost first. *)
Definition pushSegment (allowAboveRoot : bool) (stack : list string) (seg : string)
  : list string :=
  if String.eqb seg "" || String.eqb seg "." then stack
  else if String.eqb seg ".." then
    match stack with
    | top :: below =>
        if String.eqb top ".." then
          (if allowAboveRoot then seg :: stack else stack)
        else below
    | [] => if allowAboveRoot then [seg] else []
    end
  else seg :: stack.

Definition normalizeSegments (allowAboveRoot : bool) (p : string) : list string :=
  rev (fold_left (pushSegment allowAboveRoot) (split p) []).

Definition isAbsolute (p : string) : bool := Js.startsWith p "/".

(** [path.normalize] *)
Definition normalize (p : string) : string :=
  if String.eqb p "" then "."
  else
    let absolute := isAbsolute p in
    let trailing := Js.endsWith p "/" in
    let body := joinWith (normalizeSegments (negb absolute) p) in
    if String.eqb body "" then
      (if absolute then "/" else if trailing then "./" else ".")
    else
      let body := if trailing then body +:+ "/" else body in
      if absolute then "/" +:+ body else body.

(** [path.join(a, b)] *)
Definition join (a b : string) : string :=
  match Js.truthy a, Js.truthy b with
  | false, false => "."
  | true, false => normalize a
  | false, true => normalize b
  | true, true => normalize (a +:+ "/" +:+ b)
  end.

(** The scan of [path.dirname], from the last character down to index 1:
    [rchars] is the path reversed and without its first character. It
    yields how many characters are cut from the end, separator included. *)
Fixpoint dirnameCut (rchars : list ascii) (matchedSlash : bool) (cut : nat) : option nat :=
  match rchars with
  | [] => None
  | c :: rest =>
      if Ascii.eqb c slash then
        (if matchedSlash then dirnameCut rest matchedSlash (S cut) else Some (S cut))
      else dirnameCut rest false (S cut)
  end.

(** [path.dirname] *)
Definition dirname (p : string) : string :=
  match p with
  | EmptyString => "."
  | String c0 rest =>
      let hasRoot := Ascii.eqb c0 slash in
      match dirnameCut (rev (list_ascii_of_string rest)) true 0 with
      | None => if hasRoot then "/" else "."
      | Some cut =>
          let finish := (String.length p - cut)%nat in
          if hasRoot && (finish =? 1)%nat then "//" else substring 0 finish p
      end
  end.

(** [path.resolve] of one path against the working directory [cwd], as
    its list of segments. *)
Definition resolveSegments (cwd p : string) : list string :=
  if isAbsolute p then normalizeSegments false p
  else normalizeSegments false (cwd +:+ "/" +:+ p).

Fixpoint dropCommon (xs ys : list string) : list string * list string :=
  match xs, ys with
  | x :: xs', y :: ys' => if String.eqb x y then dropCommon xs' ys' else (xs, ys)
  | _, _ => (xs, ys)
  end.

(** [path.relative(from, to)] *)
Definition relative (cwd from to : string) : string :=
  let '(up, down) := dropCommon (resolveSegments cwd from) (resolveSegments cwd to) in
  joinWith (List.map (fun _ => "..") up ++ down).

End Path.

(** ** Data model *)

(** An object that a dependency key can hold. A resolved dependency is a
    reference to the [File] loaded for it; the absolute path is the
    identity of a [File]. Since [file.deps] is a plain object, reading a
    key it does not own can also yield the member of [Object.prototype]
    of that name, and the loader stores what it reads. *)
Inductive FileRef : Type :=
| FileAt (absPath : string)
| PrototypeMember (name : string).

(** [FileMap = { [key: string]: File | null }]: the own properties of the
    object; [None] is [null]. The prototype of the object is
    [Object.prototype] throughout. *)
Abbreviation FileMap := (gmap string (option FileRef)).

(** The parsed package manifest, as far as the loader reads it. *)
Module Package.
Record t : Type := Make {
  files : option (list string);
  dependencies : option (gmap string string)
}.
End Package.

Module File.
Record t : Type := Make {
  size : Z;
  absPath : string;
  moduleRoot : option string;
  package : option Package.t;
  deps : FileMap;
  realSize : option Z;
  realPath : option string;
  contents : option string;
  contextExpanded : bool;
  variableImports : option bool
}.

Definition set_absPath (f : t) (v : string) : t :=
  Make (size f) v (moduleRoot f) (package f) (deps f) (realSize f) (realPath f)
       (contents f) (contextExpanded f) (variableImports f).
Definition set_size (f : t) (v : Z) : t :=
  Make v (absPath f) (moduleRoot f) (package f) (deps f) (realSize f) (realPath f)
       (contents f) (contextExpanded f) (variableImports f).
Definition set_moduleRoot (f : t) (v : option string) : t :=
  Make (size f) (absPath f) v (package f) (deps f) (realSize f) (realPath f)
       (contents f) (contextExpanded f) (variableImports f).
Definition set_package (f : t) (v : option Package.t) : t :=
  Make (size f) (absPath f) (moduleRoot f) v (deps f) (realSize f) (realPath f)
       (contents f) (contextExpanded f) (variableImports f).
Definition set_deps (f : t) (v : FileMap) : t :=
  Make (size f) (absPath f) (moduleRoot f) (package f) v (realSize f) (realPath f)
       (contents f) (contextExpanded f) (variableImports f).
Definition set_realSize (f : t) (v : option Z) : t :=
  Make (size f) (absPath f) (moduleRoot f) (package f) (deps f) v (realPath f)
       (contents f) (contextExpanded f) (variableImports f).
Definition set_realPath (f : t) (v : option string) : t :=
  Make (size f) (absPath f) (moduleRoot f) (package f) (deps f) (realSize f) v
       (contents f) (contextExpanded f) (variableImports f).
Definition set_contents (f : t) (v : option string) : t :=
  Make (size f) (absPath f) (moduleRoot f) (package f) (deps f) (realSize f) (realPath f)
       v (contextExpanded f) (variableImports f).
Definition set_contextExpanded (f : t) (v : bool) : t :=
  Make (size f) (absPath f) (moduleRoot f) (package f) (deps f) (realSize f) (realPath f)
       (contents f) v (variableImports f).
Definition set_variableImports (f : t) (v : option bool) : t :=
  Make (size f) (absPath f) (moduleRoot f) (package f) (deps f) (realSize f) (realPath f)
       (contents f) (contextExpanded f) v.
End File.

(** Modelled from the spec: [createFile] of [./file], which is not part of
    the sources at hand. A File is created fresh per load call, anchored at
    the resolved absolute path; its dependency mapping is empty, its
    optional fields ([contents], [realPath], [realSize], [package],
    [moduleRoot], [variableImports]) are absent and [contextExpanded] is
    not yet set. *)
Definition createFile (absPath : string) : File.t :=
  File.Make 0 absPath None None ∅ None None None false None.

(** [JsLoaderOptions] *)
Inductive ExpandMode : Type := ExpandAll | ExpandNone | ExpandVariable.

Definition ExpandMode_eqb (a b : ExpandMode) : bool :=
  match a, b with
  | ExpandAll, ExpandAll | ExpandNone, ExpandNone | ExpandVariable, ExpandVariable => true
  | _, _ => false
  end.

Module Context.
Record t : Type := Make {
  moduleRoot : string;
  globs : option (list string);
  expanded : bool
}.
End Context.

Module Options.
Record t : Type := Make {
  loadContent : bool;
  expand : ExpandMode;
  isEntry : bool;
  context : option Context.t
}.
End Options.

Definition defaultOptions : Options.t :=
  Options.Make true ExpandNone false None.

(** What the resolver hands to its callback: [(err, path, data)]. *)
Module ResolveData.
Record t : Type := Make {
  descriptionFilePath : option string;
  descriptionFileData : option Package.t
}.
End ResolveData.

Module Reply.
Record t : Type := Make {
  err : option Js.Error;
  path : string;
  data : ResolveData.t
}.
End Reply.

(** [Resolved = { absPath; pkgPath; pkg; warning }]. [pkgPath] starts as
    the empty string and is overwritten with [data.descriptionFilePath],
    which is undefined ([None]) when no manifest encloses the file. *)
Module Resolved.
Record t : Type := Make {
  absPath : string;
  pkgPath : option string;
  pkg : option Package.t;
  warning : string
}.
End Resolved.

(** ** The path resolver adapter *)

Definition Resolver : Type := string -> string -> Reply.t.

(** What the callback is given by the resolvers of lines 27-37, which
    are created without [alias] and without [aliasFields]: either an
    [Error], whose message says what could not be resolved, or the path
    that was found. *)
Definition answersProperly (reply : Reply.t) : Prop :=
  match Reply.err reply with
  | Some err => Js.message err <> ""
  | None => Reply.path reply <> ""
  end.

Definition onResolved (reply : Reply.t) (result : Resolved.t) : Resolved.t :=
  match Reply.err reply with
  | Some err =>
      Resolved.Make (Resolved.absPath result) (Resolved.pkgPath result)
                    (Resolved.pkg result) (Js.message err)
  | None =>
      Resolved.Make (Reply.path reply)
                    (ResolveData.descriptionFilePath (Reply.data reply))
                    (ResolveData.descriptionFileData (Reply.data reply))
                    (Resolved.warning result)
  end.

Definition emptyResult : Resolved.t := Resolved.Make "" (Some "") None "".

Section Adapter.

Variable syncResolver : Resolver.
Variable resolver : Resolver.

Definition resolveSync (from request : string) : Resolved.t :=
  let result := emptyResult in
  onResolved (syncResolver from request) result.

(** The value the promise returned by [resolve] is fulfilled with; the
    promise is never rejected. *)
Definition resolve (from request : string) : Resolved.t :=
  let result := emptyResult in
  onResolved (resolver from request) result.

End Adapter.

(** ** Effects of the loader

    [load] is an async function: it awaits oracles that may reject, it may
    return early, and what it did is recorded as a trace of events. *)

Inductive Event : Type :=
| EvResolve (from request : string)
| EvCreateFile (absPath : string)
| EvReadFile (path : string)
| EvGlobby (cwd : string) (patterns : list string)
| EvSetContextExpanded
| EvLstat (path : string)
| EvRealpath (path : string)
| EvStat (path : string).

(** [File | { warning: string }] *)
Inductive LoadResult : Type :=
| Loaded (file : File.t)
| Warning (warning : string).

(** A settled promise, or the outcome of a call that may throw. *)
Inductive Settled (A : Type) : Type :=
| Fulfilled (a : A)
| Rejected (e : Js.Error).
Arguments Fulfilled {A} a.
Arguments Rejected {A} e.

(** One stage of the async function: it goes on with a value, returns
    [{ warning }] to the caller at once, or throws. *)
Inductive Step (A : Type) : Type :=
| Next (a : A)
| Return (warning : string)
| Throw (e : Js.Error).
Arguments Next {A} a.
Arguments Return {A} warning.
Arguments Throw {A} e.

Definition Async (A : Type) : Type := (list Event * Step A)%type.

Definition ret {A : Type} (a : A) : Async A := ([], Next a).

Definition bind {A B : Type} (m : Async A) (k : A -> Async B) : Async B :=
  match m with
  | (t, Next a) => let '(t', s) := k a in ((t ++ t')%list, s)
  | (t, Return w) => (t, Return w)
  | (t, Throw e) => (t, Throw e)
  end.

Notation "x <~ m ;; k" := (bind m (fun x => k))
  (at level 100, m at next level, right associativity).

Definition emit (ev : Event) : Async unit := ([ev], Next tt).

Definition returnWarning {A : Type} (warning : string) : Async A := ([], Return warning).

Definition await {A : Type} (ev : Event) (p : Settled A) : Async A :=
  ([ev], match p with Fulfilled a => Next a | Rejected e => Throw e end).

(** [Promise.all([p, q])]: both calls are started; the first rejection is
    taken in the order of the array. *)
Definition awaitAll {A B : Type} (ev1 ev2 : Event) (p : Settled A) (q : Settled B)
  : Async (A * B) :=
  ([ev1; ev2],
   match p, q with
   | Fulfilled a, Fulfilled b => Next (a, b)
   | Rejected e, _ => Throw e
   | _, Rejected e => Throw e
   end).

(** How the promise returned by [load] settles. *)
Definition settle (m : Async File.t) : list Event * Settled LoadResult :=
  match m with
  | (t, Next file) => (t, Fulfilled (Loaded file))
  | (t, Return w) => (t, Fulfilled (Warning w))
  | (t, Throw e) => (t, Rejected e)
  end.

(** ** Dictionaries *)

(** [Object.keys(o)] *)
Definition objectKeys {V : Type} (o : gmap string V) : list string :=
  (map_to_list o).*1.

(** [Object.assign(target, source)] *)
Definition objectAssign (target source : FileMap) : FileMap := source ∪ target.

(** The own properties of [Object.prototype] in Node, which every plain
    object inherits. *)
Definition objectPrototypeMembers : list string :=
  ["constructor"; "__defineGetter__"; "__defineSetter__"; "hasOwnProperty";
   "__lookupGetter__"; "__lookupSetter__"; "isPrototypeOf"; "propertyIsEnumerable";
   "toString"; "valueOf"; "__proto__"; "toLocaleString"].

Definition isPrototypeMember (key : string) : bool :=
  existsb (String.eqb key) objectPrototypeMembers.

(** [deps[key]] read: the own property when there is one; else the
    inherited member of that name, which is an object (a built-in
    function, or for [__proto__] the prototype itself); else undefined,
    which is [None]. *)
Definition getDep (deps : FileMap) (key : string) : option (option FileRef) :=
  match deps !! key with
  | Some v => Some v
  | None => if isPrototypeMember key then Some (Some (PrototypeMember key)) else None
  end.

(** [v || null] for a value that was read: undefined and [null] give
    [null], an object is truthy and is kept. *)
Definition orNull (v : option (option FileRef)) : option FileRef :=
  match v with
  | Some (Some ref) => Some ref
  | _ => None
  end.

(** [deps[key] = v] written with the value [v] just read under [key]: an
    own property is created or overwritten, except that for a
    [__proto__] which is not an own property the inherited setter runs:
    it is given the prototype that the getter returned, and it creates no
    property. *)
Definition setDep (deps : FileMap) (key : string) (v : option FileRef) : FileMap :=
  match deps !! key with
  | Some _ => <[key := v]> deps
  | None => if String.eqb key "__proto__" then deps else <[key := v]> deps
  end.

(** [deps[key] = deps[key] || null] *)
Definition addDep (deps : FileMap) (key : string) : FileMap :=
  setDep deps key (orNull (getDep deps key)).

(** What [deps[key] = deps[key] || null] leaves under a key that was not
    an own property: nothing for [__proto__], the inherited member for
    another member of [Object.prototype], and [null] for any other
    name. *)
Definition freshValue (key : string) : option (option FileRef) :=
  if String.eqb key "__proto__" then None
  else if isPrototypeMember key then Some (Some (PrototypeMember key))
  else Some None.

(** What it leaves under a key that held [before]. *)
Definition added (before : option (option FileRef)) (key : string)
  : option (option FileRef) :=
  match before with
  | Some v => Some v
  | None => freshValue key
  end.

Module Stats.
Record t : Type := Make { size : Z; isSymbolicLink : bool }.
End Stats.

Module ParseResult.
Record t : Type := Make { deps : FileMap; variable : bool }.
End ParseResult.

(** Truthiness of [file.variableImports]. *)
Definition flagSet (v : option bool) : bool :=
  match v with
  | Some true => true
  | _ => false
  end.

(** ** The glob expander and the loader *)

Section Loader.

(** The resolver behind [resolve]. *)
Variable resolver : Resolver.

(** File-system primitives and globby ([followSymbolicLinks: false]). *)
Variable readFile : string -> Settled string.
Variable lstat : string -> Settled Stats.t.
Variable stat : string -> Settled Stats.t.
Variable realpath : string -> Settled string.
Variable globby : list string -> string -> Settled (list string).

(** [gatherDependencies(contents, isModule)] of [./gather-deps]: the
    parse result, or the error it throws. *)
Variable gatherDependencies : option string -> bool -> Settled ParseResult.t.

(** Helpers of [./file]. [nodeModuleGlobs] reads the [package] of its
    argument. *)
Variable isNodeModule : string -> bool.
Variable ensureDottedRelative : string -> string -> string.
Variable nodeModuleGlobs : option Package.t -> list string.
Variable extraGlobs : File.t -> list string.

(** The keys [expand] derives from the glob matches: each match is made
    relative to [fileDir], and a key is kept when joining it to
    [baseDir] does not give the file's own path. *)
Definition globKeys (absPath fileDir baseDir : string) (files : list string)
  : list string :=
  List.filter
    (fun relDep => negb (String.eqb absPath (Path.join baseDir relDep)))
    (List.map (fun dep => ensureDottedRelative fileDir (Path.join baseDir dep)) files).

(** [currentDeps.some((curDep) => curDep.startsWith(dependency))] *)
Definition covered (currentDeps : list string) (dependency : string) : bool :=
  existsb (fun curDep => Js.startsWith curDep dependency) currentDeps.

Definition reconcileStep (currentDeps : list string) (deps : FileMap) (dependency : string)
  : FileMap :=
  if negb (covered currentDeps dependency) then addDep deps dependency else deps.

(** The second half of [expand]: the manifest's declared dependencies. *)
Definition reconcile (package : option Package.t) (deps : FileMap) : FileMap :=
  let currentDeps := objectKeys deps in
  match package with
  | Some manifest =>
      match Package.dependencies manifest with
      | Some declared =>
          fold_left (reconcileStep currentDeps) (objectKeys declared) deps
      | None => deps
      end
  | None => deps
  end.

(** What [expand] does to [file.deps] once globby has answered [files]. *)
Definition expandDeps (file : File.t) (fileDir baseDir : string) (files : list string)
  : FileMap :=
  reconcile (File.package file)
    (fold_left addDep (globKeys (File.absPath file) fileDir baseDir files) (File.deps file)).

Definition expand (file : File.t) (fileDir baseDir : string) (globs : list string)
  : Async File.t :=
  files <~ await (EvGlobby baseDir globs) (globby globs baseDir) ;;
  ret (File.set_deps file (expandDeps file fileDir baseDir files)).

(** [isJs] *)
Definition isJs (absPath : string) (options : Options.t) : bool :=
  Js.endsWith absPath ".js" || Js.endsWith absPath ".mjs" || Options.isEntry options.

(** [isJs || absPath.endsWith('json')] *)
Definition readsContents (absPath : string) (options : Options.t) : bool :=
  isJs absPath options || Js.endsWith absPath "json".

Definition parseWarning (absPath : string) (e : Js.Error) : string :=
  "Error parsing file: " +:+ Js.quote +:+ absPath +:+ Js.quote +:+ Js.newline +:+ Js.stack e.

(** Lines 110-127: create the File, read its contents, gather its
    dependencies. *)
Definition loadSource (absPath : string) (options : Options.t) : Async File.t :=
  _ <~ emit (EvCreateFile absPath) ;;
  let file := createFile absPath in
  let file := File.set_absPath file absPath in
  file <~ (if readsContents absPath options then
             text <~ await (EvReadFile absPath) (readFile absPath) ;;
             ret (File.set_contents file (Some text))
           else ret file) ;;
  if isJs absPath options then
    match gatherDependencies (File.contents file) (Js.endsWith absPath ".mjs") with
    | Fulfilled parseResult =>
        let file :=
          File.set_deps file (objectAssign (File.deps file) (ParseResult.deps parseResult)) in
        ret (File.set_variableImports file (Some (ParseResult.variable parseResult)))
    | Rejected e => returnWarning (parseWarning (File.absPath file) e)
    end
  else ret file.

(** [Boolean(options.expand === 'variable' && file.variableImports)] *)
Definition expandVariable (options : Options.t) (file : File.t) : bool :=
  ExpandMode_eqb (Options.expand options) ExpandVariable
  && flagSet (File.variableImports file).

(** [options.expand === 'all'] *)
Definition expandAll (options : Options.t) : bool :=
  ExpandMode_eqb (Options.expand options) ExpandAll.

(** [isNodeModule(request) && pkg && pkgPath], with the manifest and its
    path when the test passes. *)
Definition packageBoundary (request : string) (r : Resolved.t)
  : option (Package.t * string) :=
  if isNodeModule request then
    match Resolved.pkg r, Resolved.pkgPath r with
    | Some pkg, Some pkgPath => if Js.truthy pkgPath then Some (pkg, pkgPath) else None
    | _, _ => None
    end
  else None.

(** [options.context?.moduleRoot && !options.context.expanded], with the
    context when the test passes. *)
Definition inheritedContext (options : Options.t) : option Context.t :=
  match Options.context options with
  | Some ctx =>
      if Js.truthy (Context.moduleRoot ctx) && negb (Context.expanded ctx)
      then Some ctx else None
  | None => None
  end.

Definition markExpanded (file : File.t) : Async File.t :=
  _ <~ emit EvSetContextExpanded ;;
  ret (File.set_contextExpanded file true).

(** Lines 129-152: the two expansion branches. *)
Definition loadExpand (request : string) (r : Resolved.t) (options : Options.t)
    (file : File.t) : Async File.t :=
  let fileDir := Path.dirname (File.absPath file) in
  let expandVariable := expandVariable options file in
  match packageBoundary request r with
  | Some (pkg, pkgPath) =>
      let file := File.set_package file (Some pkg) in
      let file :=
        File.set_deps file (<[ensureDottedRelative fileDir pkgPath := None]> (File.deps file)) in
      let pkgDir := Path.dirname pkgPath in
      let file := File.set_moduleRoot file (Some pkgDir) in
      let expandAll := expandAll options in
      file <~ (if expandVariable || expandAll then
                 file <~ expand file fileDir pkgDir (nodeModuleGlobs (File.package file)) ;;
                 markExpanded file
               else ret file) ;;
      if (0 <? List.length (extraGlobs file))%nat then
        expand file fileDir pkgDir (extraGlobs file)
      else ret file
  | None =>
      match (if expandVariable then inheritedContext options else None) with
      | Some ctx =>
          file <~ expand file fileDir (Context.moduleRoot ctx)
                    (nodeModuleGlobs (Some (Package.Make (Context.globs ctx) None))) ;;
          markExpanded file
      | None => ret file
      end
  end.

(** Whether [load] takes one of the two branches that expand the module
    globs ([nodeModuleGlobs]) and set [contextExpanded]: the package
    branch under variable or all expansion, or else the inherited
    context under variable expansion. *)
Definition expandsModuleGlobs (request : string) (r : Resolved.t) (options : Options.t)
    (file : File.t) : bool :=
  match packageBoundary request r with
  | Some _ => expandVariable options file || expandAll options
  | None =>
      if expandVariable options file then
        match inheritedContext options with
        | Some _ => true
        | None => false
        end
      else false
  end.

(** Lines 154-164: drop the contents when they were not asked for, then
    stat the resolved path. *)
Definition loadStat (options : Options.t) (file : File.t) : Async File.t :=
  let file := if negb (Options.loadContent options) then File.set_contents file None
              else file in
  stats <~ await (EvLstat (File.absPath file)) (lstat (File.absPath file)) ;;
  file <~ (if Stats.isSymbolicLink stats then
             pa <~ awaitAll (EvRealpath (File.absPath file)) (EvStat (File.absPath file))
                     (realpath (File.absPath file)) (stat (File.absPath file)) ;;
             let file := File.set_realPath file (Some (fst pa)) in
             ret (File.set_realSize file (Some (Stats.size (snd pa))))
           else ret file) ;;
  ret (File.set_size file (Stats.size stats)).

Definition loadBody (workingDirectory request : string) (options : Options.t)
  : Async File.t :=
  r <~ ([EvResolve workingDirectory request],
        Next (resolve resolver workingDirectory request)) ;;
  if negb (Js.truthy (Resolved.absPath r)) then
    returnWarning (Resolved.warning r)
  else
    file <~ loadSource (Resolved.absPath r) options ;;
    file <~ loadExpand request r options file ;;
    loadStat options file.

(** [load(workingDirectory, request, options)]: the trace of the call
    and how its promise settles. A caller that passes no options gets
    [defaultOptions]. *)
Definition load (workingDirectory request : string) (options : Options.t)
  : list Event * Settled LoadResult :=
  settle (loadBody workingDirectory request options).

End Loader.

(** ** A concrete world

    A small file-system snapshot with its oracles, on which the loader is
    run in the examples below.

      /app/index.js                         requires ./a and lodash
      /app/broken.js                        does not parse
      /app/datajson                         an extensionless data file
      /app/logo.png                         an opaque file
      /app/link.js -> /app/real.js          a symbolic link
      /app/node_modules/pkg/package.json    main: lib/index.js
      /app/node_modules/pkg/lib/index.js
      /app/node_modules/pkg/lib/util.js
      /app/node_modules/assets/package.json declares extra asset globs
      /app/node_modules/assets/index.js
      /app/node_modules/assets/logo.svg *)

Module World.

(** Modelled from the spec: [ensureDottedRelative] of [./file], which is
    not part of the sources at hand. The path of [to] relative to
    [from], in explicitly relative form: prefixed with [./] unless it
    already starts with a relative marker. *)
Definition ensureDottedRelative (from to : string) : string :=
  let rel := Path.relative "/" from to in
  if Js.startsWith rel "./" || Js.startsWith rel "../" then rel else "./" +:+ rel.

(** Modelled from the spec: [isNodeModule] of [./file]. A bare specifier
    is one that does not start with a relative-path marker. *)
Definition isNodeModule (request : string) : bool :=
  negb (Js.startsWith request "." || Js.startsWith request "/").

(** Modelled from the spec: [nodeModuleGlobs] of [./file]. The package's
    declared file allow-list, or a permissive default pattern set. *)
Definition nodeModuleGlobs (package : option Package.t) : list string :=
  match package with
  | Some manifest =>
      match Package.files manifest with
      | Some patterns => patterns
      | None => ["**/*"]
      end
  | None => ["**/*"]
  end.

Definition pkgManifest : Package.t :=
  Package.Make (Some ["lib/**"]) (Some {[ "left-pad" := "^1.3.0" ]}).

Definition assetsManifest : Package.t := Package.Make None None.

Definition appManifest : Package.t := Package.Make None None.

(** Modelled from the spec: [extraGlobs] of [./file], which is not part
    of the sources at hand. The additional asset glob patterns that the
    package of a File declares; in this world only the [assets] package
    declares some. *)
Definition extraGlobs (file : File.t) : list string :=
  if String.eqb (File.absPath file) "/app/node_modules/assets/index.js"
  then ["*.svg"] else [].

Definition found (path pkgPath : string) (pkg : Package.t) : Reply.t :=
  Reply.Make None path (ResolveData.Make (Some pkgPath) (Some pkg)).

Definition notFound (message : string) : Reply.t :=
  Reply.Make (Some (Js.MkError message ("Error: " +:+ message)))
             "" (ResolveData.Make None None).

(** The resolver. *)
Definition resolver (from request : string) : Reply.t :=
  if String.eqb request "./index.js" then found "/app/index.js" "/app/package.json" appManifest
  else if String.eqb request "./broken.js" then
    found "/app/broken.js" "/app/package.json" appManifest
  else if String.eqb request "./datajson" then
    found "/app/datajson" "/app/package.json" appManifest
  else if String.eqb request "./logo.png" then
    found "/app/logo.png" "/app/package.json" appManifest
  else if String.eqb request "./link.js" then
    found "/app/link.js" "/app/package.json" appManifest
  else if String.eqb request "pkg" then
    found "/app/node_modules/pkg/lib/index.js" "/app/node_modules/pkg/package.json" pkgManifest
  else if String.eqb request "assets" then
    found "/app/node_modules/assets/index.js" "/app/node_modules/assets/package.json"
          assetsManifest
  else notFound ("Can't resolve '" +:+ request +:+ "' in '" +:+ from +:+ "'").

Definition enoent (path : string) : Js.Error :=
  Js.MkError ("ENOENT: no such file or directory, " +:+ path)
             ("Error: ENOENT: no such file or directory, " +:+ path).

Definition readFile (path : string) : Settled string :=
  if String.eqb path "/app/index.js" then Fulfilled "require('./a'); require('lodash')"
  else if String.eqb path "/app/broken.js" then Fulfilled "require("
  else if String.eqb path "/app/datajson" then Fulfilled "{}"
  else if String.eqb path "/app/logo.png" then Fulfilled "PNG"
  else if String.eqb path "/app/link.js" then Fulfilled "module.exports = 1"
  else if String.eqb path "/app/node_modules/pkg/lib/index.js" then
    Fulfilled "require('./util')"
  else if String.eqb path "/app/node_modules/assets/index.js" then Fulfilled "0"
  else Rejected (enoent path).

Definition lstat (path : string) : Settled Stats.t :=
  if String.eqb path "/app/link.js" then Fulfilled (Stats.Make 9 true)
  else match readFile path with
       | Fulfilled text => Fulfilled (Stats.Make (Z.of_nat (String.length text)) false)
       | Rejected e => Rejected e
       end.

Definition stat (path : string) : Settled Stats.t :=
  match readFile path with
  | Fulfilled text => Fulfilled (Stats.Make (Z.of_nat (String.length text)) false)
  | Rejected e => Rejected e
  end.

Definition realpath (path : string) : Settled string :=
  if String.eqb path "/app/link.js" then Fulfilled "/app/real.js" else Fulfilled path.

Definition globby (patterns : list string) (cwd : string) : Settled (list string) :=
  if String.eqb cwd "/app/node_modules/pkg" then Fulfilled ["lib/index.js"; "lib/util.js"]
  else if String.eqb cwd "/app/node_modules/assets" then Fulfilled ["logo.svg"]
  else Fulfilled [].

Definition gatherDependencies (contents : option string) (isModule : bool)
  : Settled ParseResult.t :=
  match contents with
  | Some text =>
      if String.eqb text "require('./a'); require('lodash')" then
        Fulfilled (ParseResult.Make {[ "./a" := None; "lodash" := None ]} false)
      else if String.eqb text "require('./util')" then
        Fulfilled (ParseResult.Make {[ "./util" := None ]} false)
      else if String.eqb text "require(" then
        Rejected (Js.MkError "Unexpected token" "SyntaxError: [1:8]: Unexpected token")
      else Fulfilled (ParseResult.Make ∅ false)
  | None => Fulfilled (ParseResult.Make ∅ false)
  end.

Definition load (workingDirectory request : string) (options : Options.t)
  : list Event * Settled LoadResult :=
  load resolver readFile lstat stat realpath globby gatherDependencies
       isNodeModule ensureDottedRelative nodeModuleGlobs extraGlobs
       workingDirectory request options.

Definition expand (file : File.t) (fileDir baseDir : string) (globs : list string)
  : Async File.t :=
  expand globby ensureDottedRelative file fileDir baseDir globs.

(** Options that ask for the expansion of every package. *)
Definition expandAllOptions : Options.t := Options.Make true ExpandAll false None.

(** The entry file of [pkg], with its manifest attached and nothing
    expanded yet. *)
Definition pkgEntry : File.t :=
  File.set_package (createFile "/app/node_modules/pkg/lib/index.js") (Some pkgManifest).


(** A resolver whose cache is stale: it still finds [/app/gone.js], which
    the file system no longer has. *)
Definition staleResolver (from request : string) : Reply.t :=
  if String.eqb request "./gone.js" then found "/app/gone.js" "/app/package.json" appManifest
  else resolver from request.



(** An extractor that throws on every input. *)
Definition failingParser (contents : option string) (isModule : bool)
  : Settled ParseResult.t :=
  Rejected (Js.MkError "Unexpected token" "SyntaxError: Unexpected token").

End World.

(** ** Reading a trace *)

Definition isSetContextExpanded (ev : Event) : bool :=
  match ev with
  | EvSetContextExpanded => true
  | _ => false
  end.

Definition isGlobby (ev : Event) : bool :=
  match ev with
  | EvGlobby _ _ => true
  | _ => false
  end.

Definition isReadFile (ev : Event) : bool :=
  match ev with
  | EvReadFile _ => true
  | _ => false
  end.

Definition isCreateFile (ev : Event) : bool :=
  match ev with
  | EvCreateFile _ => true
  | _ => false
  end.

(** How many times [file.contextExpanded = true] was executed. *)
Definition timesMarked (t : list Event) : nat :=
  List.length (List.filter isSetContextExpanded t).

(** Whether [expand] ran, that is whether globby was called. *)
Definition expansionRan (t : list Event) : bool := existsb isGlobby t.

(** Whether [readFile] was called. *)
Definition contentsRead (t : list Event) : bool := existsb isReadFile t.

(** Whether [createFile] was called. *)
Definition fileCreated (t : list Event) : bool := existsb isCreateFile t.

(** How many times globby was called. *)
Definition timesGlobbed (t : list Event) : nat :=
  List.length (List.filter isGlobby t).

(** The fields of a File that the expansion stage leaves alone. *)
Definition sameOutsideDeps (f g : File.t) : Prop :=
  File.absPath g = File.absPath f
  /\ File.contents g = File.contents f
  /\ File.variableImports g = File.variableImports f
  /\ File.realPath g = File.realPath f
  /\ File.realSize g = File.realSize f.

(** * Properties *)

(** ** Node's path functions on a few inputs *)

Example join_normalizes :
  Path.join "/pkg/lib" "../x//y/" = "/pkg/x/y/"
  /\ Path.join "/pkg" "./index.js" = "/pkg/index.js"
  /\ Path.join "a" "../../b" = "../b"
  /\ Path.join "" "" = ".".
Proof. repeat split; reflexivity. Qed.

Example dirname_cuts_last_segment :
  Path.dirname "/pkg/lib/index.js" = "/pkg/lib"
  /\ Path.dirname "/a/b/" = "/a"
  /\ Path.dirname "/a" = "/"
  /\ Path.dirname "a" = "."
  /\ Path.dirname "a//b" = "a/".
Proof. repeat split; reflexivity. Qed.

Example relative_walks_up :
  Path.relative "/" "/pkg/lib" "/pkg/lib/index.js" = "index.js"
  /\ Path.relative "/" "/pkg/lib" "/pkg/package.json" = "../package.json"
  /\ Path.relative "/" "/a/b/c" "/a/d" = "../../d".
Proof. repeat split; reflexivity. Qed.

(** ** The resolver adapter *)

Lemma onResolved_error (reply : Reply.t) (err : Js.Error) :
  Reply.err reply = Some err ->
  onResolved reply emptyResult = Resolved.Make "" (Some "") None (Js.message err).
Proof. intros Herr. unfold onResolved. rewrite Herr. reflexivity. Qed.

Lemma onResolved_found (reply : Reply.t) :
  Reply.err reply = None ->
  onResolved reply emptyResult
  = Resolved.Make (Reply.path reply)
                  (ResolveData.descriptionFilePath (Reply.data reply))
                  (ResolveData.descriptionFileData (Reply.data reply)) "".
Proof. intros Herr. unfold onResolved. rewrite Herr. reflexivity. Qed.

Lemma onResolved_empty (reply : Reply.t) :
  Resolved.absPath (onResolved reply emptyResult) = ""
  \/ Resolved.warning (onResolved reply emptyResult) = "".
Proof.
  unfold onResolved. destruct (Reply.err reply); simpl; [left | right]; reflexivity.
Qed.

Lemma onResolved_exactly_one (reply : Reply.t) :
  answersProperly reply ->
  (Resolved.warning (onResolved reply emptyResult) <> ""
   <-> Resolved.absPath (onResolved reply emptyResult) = "").
Proof.
  unfold answersProperly, onResolved.
  destruct (Reply.err reply) as [err |]; simpl; intros Hproper; split; intros H;
    congruence.
Qed.

(** C9: for every call to [resolveSync] or [resolve], the returned value
    is built from what the resolver answered. On an error it carries the
    error's message as [warning] and nothing else: [absPath] and
    [pkgPath] are empty and [pkg] is [null]. Without an error it carries
    the path found as [absPath], the manifest path and contents that the
    resolver reported, and an empty [warning]. So a non-empty [warning]
    implies an empty [absPath], and a non-empty [absPath] an empty
    [warning]; and as the resolver answers with an error that has a
    message or with a path, exactly one of the two is non-empty. The
    synchronous and the asynchronous variant behave alike. *)
Theorem resolved_exactly_one_meaningful
    (syncResolver resolver : Resolver) (from request : string) :
  let viaSync := resolveSync syncResolver from request in
  let viaAsync := resolve resolver from request in
  ((forall err,
      Reply.err (syncResolver from request) = Some err ->
      viaSync = Resolved.Make "" (Some "") None (Js.message err))
   /\ (Reply.err (syncResolver from request) = None ->
       viaSync
       = Resolved.Make
           (Reply.path (syncResolver from request))
           (ResolveData.descriptionFilePath (Reply.data (syncResolver from request)))
           (ResolveData.descriptionFileData (Reply.data (syncResolver from request))) "")
   /\ (Resolved.warning viaSync <> "" -> Resolved.absPath viaSync = "")
   /\ (Resolved.absPath viaSync <> "" -> Resolved.warning viaSync = "")
   /\ (answersProperly (syncResolver from request) ->
       (Resolved.warning viaSync <> "" <-> Resolved.absPath viaSync = "")))
  /\ ((forall err,
         Reply.err (resolver from request) = Some err ->
         viaAsync = Resolved.Make "" (Some "") None (Js.message err))
      /\ (Reply.err (resolver from request) = None ->
          viaAsync
          = Resolved.Make
              (Reply.path (resolver from request))
              (ResolveData.descriptionFilePath (Reply.data (resolver from request)))
              (ResolveData.descriptionFileData (Reply.data (resolver from request))) "")
      /\ (Resolved.warning viaAsync <> "" -> Resolved.absPath viaAsync = "")
      /\ (Resolved.absPath viaAsync <> "" -> Resolved.warning viaAsync = "")
      /\ (answersProperly (resolver from request) ->
          (Resolved.warning viaAsync <> "" <-> Resolved.absPath viaAsync = ""))).
Proof.
  simpl. unfold resolveSync, resolve.
  split.
  - split; [intros err; apply onResolved_error |].
    split; [apply onResolved_found |].
    destruct (onResolved_empty (syncResolver from request)) as [Hs | Hs];
      (split; [intros; congruence |]); (split; [intros; congruence |]);
      apply onResolved_exactly_one.
  - split; [intros err; apply onResolved_error |].
    split; [apply onResolved_found |].
    destruct (onResolved_empty (resolver from request)) as [Ha | Ha];
      (split; [intros; congruence |]); (split; [intros; congruence |]);
      apply onResolved_exactly_one.
Qed.

Lemma truthy_false_iff (s : string) : Js.truthy s = false <-> s = "".
Proof. destruct s; simpl; split; congruence. Qed.

(** ** Stages of an async function *)

Lemma bind_Next_inv {A B : Type} (m : Async A) (k : A -> Async B) (t : list Event) (b : B) :
  bind m k = (t, Next b) ->
  exists t1 a t2, m = (t1, Next a) /\ k a = (t2, Next b) /\ t = (t1 ++ t2)%list.
Proof.
  destruct m as [t1 [a | w | e]]; simpl; try discriminate.
  destruct (k a) as [t2 s] eqn:Hk. intros [= <- ->].
  exists t1, a, t2. auto.
Qed.

Lemma bind_Next_eq {A B : Type} (m : Async A) (k : A -> Async B)
    (t1 t2 : list Event) (a : A) (s : Step B) :
  m = (t1, Next a) -> k a = (t2, s) -> bind m k = ((t1 ++ t2)%list, s).
Proof. intros -> Hk. simpl. rewrite Hk. reflexivity. Qed.

Lemma existsb_app_false {A : Type} (p : A -> bool) (l1 l2 : list A) :
  existsb p l1 = false -> existsb p l2 = false -> existsb p (l1 ++ l2) = false.
Proof. intros H1 H2. rewrite existsb_app, H1, H2. reflexivity. Qed.

Lemma timesMarked_app (t1 t2 : list Event) :
  timesMarked (t1 ++ t2) = (timesMarked t1 + timesMarked t2)%nat.
Proof. unfold timesMarked. rewrite List.filter_app, List.length_app. reflexivity. Qed.

(** ** Strings *)

Lemma append_cons (c : ascii) (s1 s2 : string) :
  String c s1 +:+ s2 = String c (s1 +:+ s2).
Proof. reflexivity. Qed.

Lemma append_nil (s : string) : "" +:+ s = s.
Proof. reflexivity. Qed.

Lemma length_append (s1 s2 : string) :
  String.length (s1 +:+ s2) = (String.length s1 + String.length s2)%nat.
Proof.
  induction s1 as [| c s1 IH]; [reflexivity |].
  rewrite append_cons. simpl. rewrite IH. reflexivity.
Qed.

Lemma append_assoc (s1 s2 s3 : string) : (s1 +:+ s2) +:+ s3 = s1 +:+ (s2 +:+ s3).
Proof.
  induction s1 as [| c s1 IH]; [reflexivity |].
  rewrite !append_cons, IH. reflexivity.
Qed.

Lemma substring_whole (s : string) : substring 0 (String.length s) s = s.
Proof. induction s as [| c s IH]; simpl; [reflexivity | rewrite IH; reflexivity]. Qed.

Lemma substring_skip_append (s1 s2 : string) (m : nat) :
  substring (String.length s1) m (s1 +:+ s2) = substring 0 m s2.
Proof.
  induction s1 as [| c s1 IH]; [reflexivity |].
  rewrite append_cons. simpl. exact IH.
Qed.

Lemma substring_split (n m : nat) (s : string) :
  (n + m)%nat = String.length s -> s = substring 0 n s +:+ substring n m s.
Proof.
  revert s. induction n as [| n IH]; intros s Hlen.
  - simpl in Hlen. subst m. rewrite substring_whole. destruct s; reflexivity.
  - destruct s as [| c s]; simpl in Hlen; [discriminate |].
    simpl. rewrite append_cons. f_equal. apply IH. lia.
Qed.

Lemma prefix_refl (s : string) : String.prefix s s = true.
Proof. apply prefix_correct, substring_whole. Qed.

(** [s.endsWith(p)] holds exactly when [p] is a suffix of [s]. *)
Lemma endsWith_iff (s p : string) :
  Js.endsWith s p = true <-> exists stem, s = stem +:+ p.
Proof.
  unfold Js.endsWith. rewrite andb_true_iff, Nat.leb_le, String.eqb_eq. split.
  - intros [Hle Hsub].
    exists (substring 0 (String.length s - String.length p) s).
    pose proof (substring_split (String.length s - String.length p) (String.length p) s)
      as Hsplit.
    rewrite Hsub in Hsplit. apply Hsplit. lia.
  - intros [stem ->]. rewrite length_append. split; [lia |].
    replace (String.length stem + String.length p - String.length p)%nat
      with (String.length stem) by lia.
    rewrite substring_skip_append. apply substring_whole.
Qed.

Lemma ExpandMode_eqb_eq (a b : ExpandMode) : ExpandMode_eqb a b = true <-> a = b.
Proof. destruct a, b; simpl; split; congruence. Qed.

(** ** The dependency dictionary *)

Lemma orNull_idem (v : option (option FileRef)) : orNull (Some (orNull v)) = orNull v.
Proof. destruct v as [[ref |] |]; reflexivity. Qed.

Lemma orNull_Some (v : option FileRef) : orNull (Some v) = v.
Proof. destruct v; reflexivity. Qed.

Lemma added_idem (before : option (option FileRef)) (key : string) :
  added (added before key) key = added before key.
Proof.
  destruct before as [v |]; [reflexivity |].
  unfold added at 2 3. destruct (freshValue key) eqn:Hfresh; [reflexivity |].
  unfold added. exact Hfresh.
Qed.

Lemma freshValue_ordinary (key : string) :
  isPrototypeMember key = false -> freshValue key = Some None.
Proof.
  intros Hnot. unfold freshValue. rewrite Hnot.
  destruct (String.eqb key "__proto__") eqn:Hproto; [| reflexivity].
  apply String.eqb_eq in Hproto. subst key. discriminate Hnot.
Qed.

(** A path in explicitly relative form is not the name of a member of
    [Object.prototype]. *)
Lemma dotted_not_member (key : string) :
  Js.startsWith key "." = true -> isPrototypeMember key = false.
Proof.
  intros Hdot. destruct (isPrototypeMember key) eqn:Hmember; [| reflexivity].
  unfold isPrototypeMember in Hmember.
  apply existsb_exists in Hmember as (member & Hin & Heq).
  apply String.eqb_eq in Heq. subst member. simpl in Hin.
  repeat (destruct Hin as [<- | Hin]; [compute in Hdot; discriminate Hdot |]).
  destruct Hin.
Qed.


Lemma addDep_lookup_eq (deps : FileMap) (key : string) :
  addDep deps key !! key = added (deps !! key) key.
Proof.
  unfold addDep, setDep, getDep, added, freshValue.
  destruct (deps !! key) as [v |] eqn:Hv.
  - rewrite lookup_insert_eq, orNull_Some. reflexivity.
  - destruct (String.eqb key "__proto__") eqn:Hproto; [exact Hv |].
    rewrite lookup_insert_eq. destruct (isPrototypeMember key); reflexivity.
Qed.

Lemma addDep_lookup_ne (deps : FileMap) (key other : string) :
  key <> other -> addDep deps key !! other = deps !! other.
Proof.
  intros Hne. unfold addDep, setDep.
  destruct (deps !! key); [apply lookup_insert_ne, Hne |].
  destruct (String.eqb key "__proto__"); [reflexivity | apply lookup_insert_ne, Hne].
Qed.

(** A key whose entry [addDep] would not change. *)
Lemma addDep_fixed (deps : FileMap) (key : string) :
  added (deps !! key) key = deps !! key -> addDep deps key = deps.
Proof.
  intros Hfixed. apply map_eq. intros other.
  destruct (String.string_dec key other) as [<- | Hne].
  - rewrite addDep_lookup_eq. exact Hfixed.
  - apply addDep_lookup_ne, Hne.
Qed.

(** First writer wins: a key that is already there keeps its value. *)
Lemma addDep_present (deps : FileMap) (key : string) :
  is_Some (deps !! key) -> addDep deps key = deps.
Proof. intros [v Hv]. apply addDep_fixed. rewrite Hv. reflexivity. Qed.

Lemma addDep_mono (deps : FileMap) (key other : string) :
  is_Some (deps !! other) -> is_Some (addDep deps key !! other).
Proof.
  intros [v Hv]. destruct (String.string_dec key other) as [-> | Hne].
  - rewrite addDep_lookup_eq, Hv. simpl. eauto.
  - rewrite addDep_lookup_ne by exact Hne. eauto.
Qed.

Lemma fold_addDep_notin (keys : list string) (deps : FileMap) (key : string) :
  ~ In key keys -> fold_left addDep keys deps !! key = deps !! key.
Proof.
  revert deps. induction keys as [| k keys IH]; intros deps Hnotin; [reflexivity |].
  simpl. rewrite IH.
  - apply addDep_lookup_ne. intros ->. apply Hnotin. left. reflexivity.
  - intros Hin. apply Hnotin. right. exact Hin.
Qed.

Lemma fold_addDep_in (keys : list string) (deps : FileMap) (key : string) :
  In key keys -> fold_left addDep keys deps !! key = added (deps !! key) key.
Proof.
  revert deps. induction keys as [| k keys IH]; intros deps Hin; [destruct Hin |].
  simpl. destruct (in_dec String.string_dec key keys) as [Hlater | Hlast].
  - rewrite IH by exact Hlater.
    destruct (String.string_dec k key) as [-> | Hne].
    + rewrite addDep_lookup_eq, added_idem. reflexivity.
    + rewrite addDep_lookup_ne by exact Hne. reflexivity.
  - rewrite fold_addDep_notin by exact Hlast.
    destruct Hin as [-> | Hin]; [apply addDep_lookup_eq | contradiction].
Qed.

Lemma fold_addDep_mono (keys : list string) (deps : FileMap) (key : string) :
  is_Some (deps !! key) -> is_Some (fold_left addDep keys deps !! key).
Proof.
  intros [v Hv]. destruct (in_dec String.string_dec key keys) as [Hin | Hnotin].
  - rewrite fold_addDep_in by exact Hin. rewrite Hv. simpl. eauto.
  - rewrite fold_addDep_notin by exact Hnotin. eauto.
Qed.

Lemma fold_addDep_resolved (keys : list string) (deps : FileMap) (key : string)
    (ref : FileRef) :
  deps !! key = Some (Some ref) -> fold_left addDep keys deps !! key = Some (Some ref).
Proof.
  intros Hres. destruct (in_dec String.string_dec key keys) as [Hin | Hnotin].
  - rewrite fold_addDep_in by exact Hin. rewrite Hres. reflexivity.
  - rewrite fold_addDep_notin by exact Hnotin. exact Hres.
Qed.

(** Adding keys whose entries are as an addition leaves them changes
    nothing. *)
Lemma fold_addDep_fixed (keys : list string) (deps : FileMap) :
  (forall key, In key keys -> added (deps !! key) key = deps !! key) ->
  fold_left addDep keys deps = deps.
Proof.
  induction keys as [| k keys IH]; intros Hall; [reflexivity |].
  simpl. rewrite addDep_fixed by (apply Hall; left; reflexivity).
  apply IH. intros key Hin. apply Hall. right. exact Hin.
Qed.

Lemma fold_addDep_present (keys : list string) (deps : FileMap) :
  (forall key, In key keys -> is_Some (deps !! key)) -> fold_left addDep keys deps = deps.
Proof.
  intros Hall. apply fold_addDep_fixed. intros key Hin.
  destruct (Hall key Hin) as [v Hv]. rewrite Hv. reflexivity.
Qed.

(** An entry that is as an addition leaves it is not changed by further
    additions. *)
Lemma fold_addDep_settled (keys : list string) (deps : FileMap) (key : string) :
  added (deps !! key) key = deps !! key -> fold_left addDep keys deps !! key = deps !! key.
Proof.
  intros Hfixed. destruct (in_dec String.string_dec key keys) as [Hin | Hnotin].
  - rewrite fold_addDep_in by exact Hin. exact Hfixed.
  - apply fold_addDep_notin, Hnotin.
Qed.

Lemma objectKeys_In {V : Type} (o : gmap string V) (key : string) :
  In key (objectKeys o) <-> is_Some (o !! key).
Proof.
  unfold objectKeys. rewrite <- list_elem_of_In, list_elem_of_fmap. split.
  - intros ([k v] & -> & Hin). apply elem_of_map_to_list in Hin. simpl. eauto.
  - intros [v Hv]. exists (key, v). split; [reflexivity |].
    apply elem_of_map_to_list. exact Hv.
Qed.

Lemma covered_iff (currentDeps : list string) (dependency : string) :
  covered currentDeps dependency = true
  <-> exists curDep, In curDep currentDeps /\ Js.startsWith curDep dependency = true.
Proof. unfold covered. apply existsb_exists. Qed.

Lemma covered_self (currentDeps : list string) (dependency : string) :
  In dependency currentDeps -> covered currentDeps dependency = true.
Proof.
  intros Hin. apply covered_iff. exists dependency. split; [exact Hin |].
  apply prefix_refl.
Qed.

Lemma fold_reconcileStep (currentDeps declared : list string) (deps : FileMap) :
  fold_left (reconcileStep currentDeps) declared deps
  = fold_left addDep
      (List.filter (fun dependency => negb (covered currentDeps dependency)) declared) deps.
Proof.
  revert deps. induction declared as [| d declared IH]; intros deps; [reflexivity |].
  simpl. unfold reconcileStep at 2.
  destruct (negb (covered currentDeps d)); simpl; apply IH.
Qed.

Lemma reconcile_mono (package : option Package.t) (deps : FileMap) (key : string) :
  is_Some (deps !! key) -> is_Some (reconcile package deps !! key).
Proof.
  intros Hsome. unfold reconcile.
  destruct package as [manifest |]; [| exact Hsome].
  destruct (Package.dependencies manifest) as [declared |]; [| exact Hsome].
  rewrite fold_reconcileStep. apply fold_addDep_mono, Hsome.
Qed.

Lemma reconcile_resolved (package : option Package.t) (deps : FileMap) (key : string)
    (ref : FileRef) :
  deps !! key = Some (Some ref) -> reconcile package deps !! key = Some (Some ref).
Proof.
  intros Hres. unfold reconcile.
  destruct package as [manifest |]; [| exact Hres].
  destruct (Package.dependencies manifest) as [declared |]; [| exact Hres].
  rewrite fold_reconcileStep. apply fold_addDep_resolved, Hres.
Qed.

(** Once every declared name is covered, reconciliation changes nothing. *)
Lemma reconcile_covered (package : option Package.t) (deps : FileMap) :
  (forall manifest declared name,
     package = Some manifest -> Package.dependencies manifest = Some declared ->
     In name (objectKeys declared) -> covered (objectKeys deps) name = true) ->
  reconcile package deps = deps.
Proof.
  intros Hcov. unfold reconcile.
  destruct package as [manifest |]; [| reflexivity].
  destruct (Package.dependencies manifest) as [declared |] eqn:Hdecl; [| reflexivity].
  rewrite fold_reconcileStep. apply fold_addDep_present.
  intros key Hin. apply filter_In in Hin as [Hin Hnot].
  rewrite (Hcov manifest declared key eq_refl Hdecl Hin) in Hnot. discriminate.
Qed.

(** Reconciliation changes nothing when every declared name is covered
    or has the entry an addition leaves. *)
Lemma reconcile_fixed (package : option Package.t) (deps : FileMap) :
  (forall manifest declared name,
     package = Some manifest -> Package.dependencies manifest = Some declared ->
     In name (objectKeys declared) ->
     covered (objectKeys deps) name = true \/ added (deps !! name) name = deps !! name) ->
  reconcile package deps = deps.
Proof.
  intros Hcov. unfold reconcile.
  destruct package as [manifest |]; [| reflexivity].
  destruct (Package.dependencies manifest) as [declared |] eqn:Hdecl; [| reflexivity].
  rewrite fold_reconcileStep. apply fold_addDep_fixed.
  intros key Hin. apply filter_In in Hin as [Hin Hnot].
  destruct (Hcov manifest declared key eq_refl Hdecl Hin) as [Hc | Hfixed];
    [| exact Hfixed].
  rewrite Hc in Hnot. discriminate.
Qed.

(** An entry that is as an addition leaves it is not changed by the
    reconciliation. *)
Lemma reconcile_settled (package : option Package.t) (deps : FileMap) (key : string) :
  added (deps !! key) key = deps !! key -> reconcile package deps !! key = deps !! key.
Proof.
  intros Hfixed. unfold reconcile.
  destruct package as [manifest |]; [| reflexivity].
  destruct (Package.dependencies manifest) as [declared |]; [| reflexivity].
  rewrite fold_reconcileStep. apply fold_addDep_settled, Hfixed.
Qed.

(** *** What adding keys does to the other entries *)

Lemma fold_addDep_keeps (keys : list string) (deps : FileMap) (key : string)
    (v : option FileRef) :
  deps !! key = Some v -> fold_left addDep keys deps !! key = Some v.
Proof.
  intros Hv. destruct (in_dec String.string_dec key keys) as [Hin | Hnotin].
  - rewrite fold_addDep_in by exact Hin. rewrite Hv. reflexivity.
  - rewrite fold_addDep_notin by exact Hnotin. exact Hv.
Qed.

Lemma fold_addDep_cases (keys : list string) (deps : FileMap) (key : string)
    (v : option FileRef) :
  fold_left addDep keys deps !! key = Some v ->
  deps !! key = Some v
  \/ (deps !! key = None /\ freshValue key = Some v /\ In key keys).
Proof.
  destruct (in_dec String.string_dec key keys) as [Hin | Hnotin].
  - rewrite fold_addDep_in by exact Hin.
    destruct (deps !! key) as [w |]; simpl; auto.
  - rewrite fold_addDep_notin by exact Hnotin. auto.
Qed.

Lemma fold_addDep_same_keys (keys keys' : list string) (deps : FileMap) :
  (forall key, In key keys <-> In key keys') ->
  fold_left addDep keys deps = fold_left addDep keys' deps.
Proof.
  intros Hsame. apply map_eq. intros key.
  destruct (in_dec String.string_dec key keys) as [Hin | Hnotin].
  - rewrite !fold_addDep_in; [reflexivity | apply Hsame, Hin | exact Hin].
  - rewrite !fold_addDep_notin; [reflexivity | | exact Hnotin].
    intros Hin. apply Hnotin, Hsame, Hin.
Qed.

Lemma reconcile_keeps (package : option Package.t) (deps : FileMap) (key : string)
    (v : option FileRef) :
  deps !! key = Some v -> reconcile package deps !! key = Some v.
Proof.
  intros Hv. unfold reconcile.
  destruct package as [manifest |]; [| exact Hv].
  destruct (Package.dependencies manifest) as [declared |]; [| exact Hv].
  rewrite fold_reconcileStep. apply fold_addDep_keeps, Hv.
Qed.

(** Where an entry of the reconciled map comes from. *)
Lemma reconcile_cases (package : option Package.t) (deps : FileMap) (key : string)
    (v : option FileRef) :
  reconcile package deps !! key = Some v ->
  deps !! key = Some v
  \/ (deps !! key = None /\ freshValue key = Some v
      /\ exists manifest declared,
           package = Some manifest
           /\ Package.dependencies manifest = Some declared
           /\ is_Some (declared !! key)
           /\ covered (objectKeys deps) key = false).
Proof.
  unfold reconcile.
  destruct package as [manifest |]; [| auto].
  destruct (Package.dependencies manifest) as [declared |] eqn:Hdecl; [| auto].
  rewrite fold_reconcileStep. intros Hv.
  apply fold_addDep_cases in Hv as [Hv | (Hnone & Hfresh & Hin)]; [auto |].
  right. apply filter_In in Hin as [Hin Hcov].
  repeat split; auto. exists manifest, declared.
  repeat split; auto.
  - apply objectKeys_In, Hin.
  - apply negb_true_iff, Hcov.
Qed.

Lemma snd_bind {A B : Type} (m : Async A) (k : A -> Async B) :
  snd (bind m k)
  = match snd m with
    | Next a => snd (k a)
    | Return w => Return w
    | Throw e => Throw e
    end.
Proof.
  destruct m as [t [a | w | e]]; simpl; [| reflexivity..].
  destruct (k a); reflexivity.
Qed.

Lemma timesGlobbed_app (t1 t2 : list Event) :
  timesGlobbed (t1 ++ t2) = (timesGlobbed t1 + timesGlobbed t2)%nat.
Proof. unfold timesGlobbed. rewrite List.filter_app, List.length_app. reflexivity. Qed.

Lemma timesGlobbed_none (t : list Event) :
  expansionRan t = false -> timesGlobbed t = 0%nat.
Proof.
  unfold expansionRan, timesGlobbed. induction t as [| ev t IH]; [reflexivity |].
  simpl. destruct (isGlobby ev); simpl; [discriminate | exact IH].
Qed.

Section LoaderProperties.

Variable resolver : Resolver.
Variable readFile : string -> Settled string.
Variable lstat : string -> Settled Stats.t.
Variable stat : string -> Settled Stats.t.
Variable realpath : string -> Settled string.
Variable globby : list string -> string -> Settled (list string).
Variable gatherDependencies : option string -> bool -> Settled ParseResult.t.
Variable isNodeModule : string -> bool.
Variable ensureDottedRelative : string -> string -> string.
Variable nodeModuleGlobs : option Package.t -> list string.
Variable extraGlobs : File.t -> list string.

Local Abbreviation loader :=
  (load resolver readFile lstat stat realpath globby gatherDependencies
        isNodeModule ensureDottedRelative nodeModuleGlobs extraGlobs).

(** C1: when the resolver answers as it does, with an error that has a
    message or with a path, and resolution yields no absolute path, then
    [load] does nothing but the resolution, constructs no File, and
    returns [{ warning }] with a non-empty warning: the message of the
    resolver's error. *)
Theorem load_unresolved_returns_warning
    (workingDirectory request : string) (options : Options.t) :
  let r := resolve resolver workingDirectory request in
  answersProperly (resolver workingDirectory request) ->
  Resolved.absPath r = "" ->
  exists warning,
    loader workingDirectory request options
    = ([EvResolve workingDirectory request], Fulfilled (Warning warning))
    /\ warning <> ""
    /\ warning = Resolved.warning r
    /\ fileCreated (fst (loader workingDirectory request options)) = false
    /\ exists err,
         Reply.err (resolver workingDirectory request) = Some err
         /\ warning = Js.message err.
Proof.
  intros r Hproper Habs.
  assert (Hload : loader workingDirectory request options
            = ([EvResolve workingDirectory request],
               Fulfilled (Warning (Resolved.warning r)))).
  { unfold load, loadBody. fold r. simpl.
    rewrite (proj2 (truthy_false_iff _) Habs). reflexivity. }
  exists (Resolved.warning r). split; [exact Hload |].
  assert (Hr : r = onResolved (resolver workingDirectory request) emptyResult)
    by reflexivity.
  unfold answersProperly in Hproper.
  destruct (Reply.err (resolver workingDirectory request)) as [err |] eqn:Herr.
  - rewrite (onResolved_error _ _ Herr) in Hr.
    assert (Hw : Resolved.warning r = Js.message err) by (rewrite Hr; reflexivity).
    split; [congruence |]. split; [reflexivity |].
    split; [rewrite Hload; reflexivity |]. exists err. auto.
  - rewrite (onResolved_found _ Herr) in Hr.
    assert (Hp : Resolved.absPath r = Reply.path (resolver workingDirectory request))
      by (rewrite Hr; reflexivity).
    congruence.
Qed.

Local Abbreviation expandOn := (expand globby ensureDottedRelative).
Local Abbreviation sourceOf := (loadSource readFile gatherDependencies).
Local Abbreviation expansionOf :=
  (loadExpand globby isNodeModule ensureDottedRelative nodeModuleGlobs extraGlobs).
Local Abbreviation statOf := (loadStat lstat stat realpath).

(** *** What each stage of [load] does when it goes on *)

Lemma expand_Next_inv (file : File.t) (fileDir baseDir : string) (globs : list string)
    (t : list Event) (file' : File.t) :
  expandOn file fileDir baseDir globs = (t, Next file') ->
  exists files,
    globby globs baseDir = Fulfilled files
    /\ t = [EvGlobby baseDir globs]
    /\ file' = File.set_deps file (expandDeps ensureDottedRelative file fileDir baseDir files).
Proof.
  unfold expand, await. simpl.
  destruct (globby globs baseDir) as [files | e]; simpl; [| discriminate].
  intros [= <- <-]. exists files. auto.
Qed.

Lemma expand_fulfilled (file : File.t) (fileDir baseDir : string) (globs files : list string) :
  globby globs baseDir = Fulfilled files ->
  expandOn file fileDir baseDir globs
    = ([EvGlobby baseDir globs],
       Next (File.set_deps file (expandDeps ensureDottedRelative file fileDir baseDir files))).
Proof. intros H. unfold expand, await. simpl. rewrite H. reflexivity. Qed.

Lemma load_Loaded_inv (workingDirectory request : string) (options : Options.t)
    (t : list Event) (file : File.t) :
  loader workingDirectory request options = (t, Fulfilled (Loaded file)) ->
  let r := resolve resolver workingDirectory request in
  Js.truthy (Resolved.absPath r) = true
  /\ exists t1 f1 t2 f2 t3,
       sourceOf (Resolved.absPath r) options = (t1, Next f1)
       /\ expansionOf request r options f1 = (t2, Next f2)
       /\ statOf options f2 = (t3, Next file)
       /\ t = (EvResolve workingDirectory request :: t1 ++ t2 ++ t3)%list.
Proof.
  intros Hload r. unfold load, settle in Hload.
  destruct (loadBody _ _ _ _ _ _ _ _ _ _ _ _ _ _) as [t' [f' | w | e]] eqn:Hbody;
    inversion Hload; subst; clear Hload.
  unfold loadBody in Hbody. fold r in Hbody. simpl in Hbody.
  destruct (Js.truthy (Resolved.absPath r)) eqn:Habs; simpl in Hbody; [| discriminate].
  split; [reflexivity |].
  destruct (bind _ _) as [t0 s0] eqn:Hrest in Hbody.
  inversion Hbody; subst; clear Hbody.
  apply bind_Next_inv in Hrest as (t1 & f1 & t23 & Hsrc & Hrest & ->).
  apply bind_Next_inv in Hrest as (t2 & f2 & t3 & Hexp & Hstat & ->).
  exists t1, f1, t2, f2, t3. auto.
Qed.

Lemma loadSource_Next_inv (absPath : string) (options : Options.t)
    (t : list Event) (file : File.t) :
  sourceOf absPath options = (t, Next file) ->
  File.absPath file = absPath
  /\ File.contextExpanded file = false
  /\ File.realPath file = None
  /\ File.realSize file = None
  /\ (if readsContents absPath options
      then exists text, readFile absPath = Fulfilled text
                        /\ File.contents file = Some text
                        /\ t = [EvCreateFile absPath; EvReadFile absPath]
      else File.contents file = None /\ t = [EvCreateFile absPath])
  /\ (if isJs absPath options
      then exists parsed,
             gatherDependencies (File.contents file) (Js.endsWith absPath ".mjs")
               = Fulfilled parsed
             /\ File.variableImports file = Some (ParseResult.variable parsed)
      else File.variableImports file = None).
Proof.
  unfold loadSource. simpl.
  destruct (readsContents absPath options) eqn:Hreads; simpl.
  - destruct (readFile absPath) as [text | e]; simpl; [| discriminate].
    destruct (isJs absPath options) eqn:Hjs; simpl.
    + destruct (gatherDependencies (Some text) _) as [parsed | e] eqn:Hparse; simpl;
        [| discriminate].
      intros [= <- <-]. simpl. repeat split; eauto.
    + intros [= <- <-]. simpl. repeat split; eauto.
  - destruct (isJs absPath options) eqn:Hjs; simpl.
    + destruct (gatherDependencies None _) as [parsed | e] eqn:Hparse; simpl;
        [| discriminate].
      intros [= <- <-]. simpl. repeat split; eauto.
    + intros [= <- <-]. simpl. repeat split; eauto.
Qed.

Lemma markExpanded_eq (file : File.t) :
  markExpanded file = ([EvSetContextExpanded], Next (File.set_contextExpanded file true)).
Proof. reflexivity. Qed.

Lemma expand_Next_same (file : File.t) (fileDir baseDir : string) (globs : list string)
    (t : list Event) (file' : File.t) :
  expandOn file fileDir baseDir globs = (t, Next file') ->
  sameOutsideDeps file file'
  /\ File.contextExpanded file' = File.contextExpanded file
  /\ File.package file' = File.package file
  /\ File.moduleRoot file' = File.moduleRoot file.
Proof.
  intros H. apply expand_Next_inv in H as (files & _ & _ & ->).
  unfold sameOutsideDeps. simpl. auto 10.
Qed.

(** The trace and the flag left by the expansion stage. *)
Lemma loadExpand_Next_inv (request : string) (r : Resolved.t) (options : Options.t)
    (f1 : File.t) (t : list Event) (f2 : File.t) :
  expansionOf request r options f1 = (t, Next f2) ->
  sameOutsideDeps f1 f2
  /\ File.contextExpanded f2
     = File.contextExpanded f1 || expandsModuleGlobs isNodeModule request r options f1
  /\ match packageBoundary isNodeModule request r with
     | Some (pkg, pkgPath) =>
         exists extra,
           t = ((if expandVariable options f1 || expandAll options
                 then [EvGlobby (Path.dirname pkgPath) (nodeModuleGlobs (Some pkg));
                       EvSetContextExpanded]
                 else []) ++ extra)%list
           /\ (extra = []
               \/ exists patterns,
                    extra = [EvGlobby (Path.dirname pkgPath) patterns] /\ patterns <> [])
     | None =>
         t = match (if expandVariable options f1 then inheritedContext options else None) with
             | Some ctx =>
                 [EvGlobby (Context.moduleRoot ctx)
                           (nodeModuleGlobs (Some (Package.Make (Context.globs ctx) None)));
                  EvSetContextExpanded]
             | None => []
             end
     end.
Proof.
  unfold loadExpand, expandsModuleGlobs.
  destruct (packageBoundary isNodeModule request r) as [[pkg pkgPath] |].
  - intros H. apply bind_Next_inv in H as (ta & fa & tb & Ha & Hb & ->).
    assert (Hfa : sameOutsideDeps f1 fa
                  /\ File.contextExpanded fa
                     = File.contextExpanded f1 || (expandVariable options f1 || expandAll options)
                  /\ ta = (if expandVariable options f1 || expandAll options
                           then [EvGlobby (Path.dirname pkgPath) (nodeModuleGlobs (Some pkg));
                                 EvSetContextExpanded]
                           else [])).
    { destruct (expandVariable options f1 || expandAll options).
      - apply bind_Next_inv in Ha as (tc & fc & td & Hc & Hd & ->).
        rewrite markExpanded_eq in Hd. injection Hd as <- <-.
        pose proof (expand_Next_same _ _ _ _ _ _ Hc) as (Hsame & _).
        apply expand_Next_inv in Hc as (files & _ & -> & _).
        unfold sameOutsideDeps in *. simpl in *.
        rewrite orb_true_r. auto 10.
      - injection Ha as <- <-. unfold sameOutsideDeps. simpl.
        rewrite orb_false_r. auto 10. }
    destruct Hfa as (Hsame & Hflag & ->).
    destruct (0 <? List.length (extraGlobs fa))%nat eqn:Hextra.
    + pose proof (expand_Next_same _ _ _ _ _ _ Hb) as (Hsame' & Hflag' & _).
      apply expand_Next_inv in Hb as (files & _ & -> & _).
      split; [| split].
      * unfold sameOutsideDeps in *. intuition congruence.
      * congruence.
      * eexists. split; [reflexivity |]. right. eexists. split; [reflexivity |].
        intros Hnil. rewrite Hnil in Hextra. discriminate.
    + injection Hb as <- <-.
      split; [exact Hsame | split; [exact Hflag |]].
      exists []. auto.
  - destruct (expandVariable options f1).
    + destruct (inheritedContext options) as [ctx |].
      * intros H. apply bind_Next_inv in H as (tc & fc & td & Hc & Hd & ->).
        rewrite markExpanded_eq in Hd. injection Hd as <- <-.
        pose proof (expand_Next_same _ _ _ _ _ _ Hc) as (Hsame & _).
        apply expand_Next_inv in Hc as (files & _ & -> & _).
        unfold sameOutsideDeps in *. simpl in *. rewrite orb_true_r. auto 10.
      * intros [= <- <-]. unfold sameOutsideDeps. rewrite orb_false_r. auto 10.
    + intros [= <- <-]. unfold sameOutsideDeps. rewrite orb_false_r. auto 10.
Qed.

Lemma loadStat_Next_inv (options : Options.t) (f2 : File.t) (t : list Event) (file : File.t) :
  statOf options f2 = (t, Next file) ->
  File.absPath file = File.absPath f2
  /\ File.contextExpanded file = File.contextExpanded f2
  /\ File.variableImports file = File.variableImports f2
  /\ File.deps file = File.deps f2
  /\ File.contents file
     = (if Options.loadContent options then File.contents f2 else None)
  /\ exists stats,
       lstat (File.absPath f2) = Fulfilled stats
       /\ File.size file = Stats.size stats
       /\ if Stats.isSymbolicLink stats
          then exists target targetStats,
                 realpath (File.absPath f2) = Fulfilled target
                 /\ stat (File.absPath f2) = Fulfilled targetStats
                 /\ File.realPath file = Some target
                 /\ File.realSize file = Some (Stats.size targetStats)
                 /\ t = [EvLstat (File.absPath f2); EvRealpath (File.absPath f2);
                         EvStat (File.absPath f2)]
          else File.realPath file = File.realPath f2
               /\ File.realSize file = File.realSize f2
               /\ t = [EvLstat (File.absPath f2)].
Proof.
  unfold loadStat.
  set (f3 := if negb (Options.loadContent options) then File.set_contents f2 None else f2).
  assert (Hf3 : File.absPath f3 = File.absPath f2
                /\ File.contextExpanded f3 = File.contextExpanded f2
                /\ File.variableImports f3 = File.variableImports f2
                /\ File.deps f3 = File.deps f2
                /\ File.realPath f3 = File.realPath f2
                /\ File.realSize f3 = File.realSize f2
                /\ File.contents f3
                   = (if Options.loadContent options then File.contents f2 else None)).
  { subst f3. destruct (Options.loadContent options); simpl; auto 10. }
  destruct Hf3 as (Habs & Hctx & Hvar & Hdeps & Hrp & Hrs & Hcont).
  rewrite Habs. clearbody f3.
  intros H. apply bind_Next_inv in H as (ta & stats & tb & Ha & Hb & ->).
  unfold await in Ha.
  destruct (lstat (File.absPath f2)) as [stats' | e]; [| discriminate].
  injection Ha as <- <-.
  apply bind_Next_inv in Hb as (tc & f4 & td & Hc & Hd & ->).
  unfold ret in Hd. injection Hd as <- <-.
  destruct (Stats.isSymbolicLink stats') eqn:Hlink.
  - apply bind_Next_inv in Hc as (te & pa & tf & He & Hf & ->).
    unfold awaitAll in He.
    destruct (realpath (File.absPath f2)) as [target | e]; [| discriminate].
    destruct (stat (File.absPath f2)) as [targetStats | e]; [| discriminate].
    injection He as <- <-. unfold ret in Hf. injection Hf as <- <-. simpl.
    repeat split; auto. exists stats'. rewrite Hlink. repeat split; auto.
    exists target, targetStats. auto 10.
  - unfold ret in Hc. injection Hc as <- <-. simpl.
    repeat split; auto. exists stats'. rewrite Hlink. auto 10.
Qed.

(** *** The claims about [load] *)

(** C8: for every load that returns a File, the File's [size] is the
    [lstat] size of the resolved path itself; when that path is a symbolic
    link, [realPath] is its [realpath] and [realSize] the size of the
    [stat] of the target; when it is not, [realPath] and [realSize] stay
    absent. *)
Theorem load_records_symlink
    (workingDirectory request : string) (options : Options.t)
    (t : list Event) (file : File.t) :
  loader workingDirectory request options = (t, Fulfilled (Loaded file)) ->
  let absPath := Resolved.absPath (resolve resolver workingDirectory request) in
  File.absPath file = absPath
  /\ exists stats,
       lstat absPath = Fulfilled stats
       /\ File.size file = Stats.size stats
       /\ if Stats.isSymbolicLink stats
          then exists target targetStats,
                 realpath absPath = Fulfilled target
                 /\ stat absPath = Fulfilled targetStats
                 /\ File.realPath file = Some target
                 /\ File.realSize file = Some (Stats.size targetStats)
          else File.realPath file = None /\ File.realSize file = None.
Proof.
  intros Hload absPath.
  apply load_Loaded_inv in Hload as (_ & t1 & f1 & t2 & f2 & t3 & Hsrc & Hexp & Hstat & _).
  fold absPath in Hsrc.
  apply loadSource_Next_inv in Hsrc as (Habs1 & _ & Hrp1 & Hrs1 & _).
  apply loadExpand_Next_inv in Hexp as ((Habs2 & _ & _ & Hrp2 & Hrs2) & _).
  apply loadStat_Next_inv in Hstat as (Habs3 & _ & _ & _ & _ & stats & Hl & Hsize & Hlink).
  assert (Hf2 : File.absPath f2 = absPath) by congruence.
  rewrite Hf2 in *. split; [congruence |].
  exists stats. split; [exact Hl |]. split; [exact Hsize |].
  destruct (Stats.isSymbolicLink stats).
  - destruct Hlink as (target & targetStats & Hr & Hs & Hp & Hz & _).
    exists target, targetStats. auto.
  - destruct Hlink as (Hp & Hz & _). split; congruence.
Qed.

(** C10: for every load that returns a File, [readFile] is called exactly
    when the resolved path ends with [.js] or [.mjs], or [options.isEntry]
    is set, or the path ends with the four characters [json], no dot
    needed: a path such as [datajson] has its contents read. When
    [readFile] is called it is on the resolved path, and when it is not,
    the File's [contents] stay absent. *)
Theorem load_reads_contents_iff
    (workingDirectory request : string) (options : Options.t)
    (t : list Event) (file : File.t) :
  loader workingDirectory request options = (t, Fulfilled (Loaded file)) ->
  let absPath := Resolved.absPath (resolve resolver workingDirectory request) in
  (contentsRead t = true <->
     Js.endsWith absPath ".js" = true
     \/ Js.endsWith absPath ".mjs" = true
     \/ Options.isEntry options = true
     \/ exists stem, absPath = stem +:+ "json")
  /\ (contentsRead t = true -> In (EvReadFile absPath) t)
  /\ (contentsRead t = false -> File.contents file = None)
  /\ (forall dir, readsContents (dir +:+ "datajson") options = true).
Proof.
  intros Hload absPath.
  apply load_Loaded_inv in Hload as (_ & t1 & f1 & t2 & f2 & t3 & Hsrc & Hexp & Hstat & ->).
  fold absPath in Hsrc.
  apply loadSource_Next_inv in Hsrc as (_ & _ & _ & _ & Hread & _).
  pose proof (loadExpand_Next_inv _ _ _ _ _ _ Hexp) as ((_ & Hc2 & _) & _ & Htrace).
  apply loadStat_Next_inv in Hstat as (_ & _ & _ & _ & Hc3 & stats & _ & _ & Hlink).
  assert (Ht2 : contentsRead t2 = false).
  { destruct (packageBoundary isNodeModule request _) as [[pkg pkgPath] |].
    - destruct Htrace as (extra & -> & Hextra).
      apply existsb_app_false.
      + destruct (expandVariable options f1 || expandAll options); reflexivity.
      + destruct Hextra as [-> | (patterns & -> & _)]; reflexivity.
    - rewrite Htrace.
      destruct (if expandVariable options f1 then inheritedContext options else None);
        reflexivity. }
  assert (Ht3 : contentsRead t3 = false).
  { destruct (Stats.isSymbolicLink stats).
    - destruct Hlink as (? & ? & _ & _ & _ & _ & ->). reflexivity.
    - destruct Hlink as (_ & _ & ->). reflexivity. }
  assert (Hcond : readsContents absPath options = true <->
                  Js.endsWith absPath ".js" = true
                  \/ Js.endsWith absPath ".mjs" = true
                  \/ Options.isEntry options = true
                  \/ exists stem, absPath = stem +:+ "json").
  { unfold readsContents, isJs.
    rewrite !orb_true_iff, (endsWith_iff absPath "json"). tauto. }
  assert (Hall : contentsRead (EvResolve workingDirectory request :: t1 ++ t2 ++ t3)
                 = contentsRead t1).
  { unfold contentsRead in *. simpl. rewrite !existsb_app, Ht2, Ht3, !orb_false_r.
    reflexivity. }
  rewrite Hall. rewrite <- Hcond.
  destruct (readsContents absPath options).
  - destruct Hread as (text & _ & _ & ->). split; [split; reflexivity |].
    split; [intros _; simpl; auto |]. split; [discriminate |].
    intros dir. unfold readsContents. apply orb_true_iff. right.
    apply endsWith_iff. exists (dir +:+ "data"). rewrite append_assoc. reflexivity.
  - destruct Hread as (Hnone & ->). split; [split; intros H; discriminate H |].
    split; [discriminate |]. split.
    + intros _. rewrite Hc3. destruct (Options.loadContent options); congruence.
    + intros dir. unfold readsContents. apply orb_true_iff. right.
      apply endsWith_iff. exists (dir +:+ "data"). rewrite append_assoc. reflexivity.
Qed.

(** C6: when the resolved file is JS-like, its contents are read and
    static extraction throws [e], [load] does not reject: its promise is
    fulfilled with [{ warning }], and the warning is the text
    [Error parsing file: ] followed by the file's absolute path in double
    quotes, a line break and the diagnostic [e.stack]. *)
Theorem load_parse_failure_returns_warning
    (workingDirectory request : string) (options : Options.t)
    (text : string) (e : Js.Error) :
  let absPath := Resolved.absPath (resolve resolver workingDirectory request) in
  absPath <> "" ->
  isJs absPath options = true ->
  readFile absPath = Fulfilled text ->
  gatherDependencies (Some text) (Js.endsWith absPath ".mjs") = Rejected e ->
  snd (loader workingDirectory request options)
    = Fulfilled (Warning ("Error parsing file: " +:+ Js.quote +:+ absPath +:+ Js.quote
                          +:+ Js.newline +:+ Js.stack e))
  /\ (forall thrown, snd (loader workingDirectory request options) <> Rejected thrown)
  /\ fst (loader workingDirectory request options)
     = [EvResolve workingDirectory request; EvCreateFile absPath; EvReadFile absPath].
Proof.
  intros absPath Habs Hjs Hread Hparse.
  assert (Htruthy : Js.truthy absPath = true).
  { destruct (Js.truthy absPath) eqn:Ht; [reflexivity |].
    apply truthy_false_iff in Ht. contradiction. }
  assert (Hload : loader workingDirectory request options
                  = ([EvResolve workingDirectory request; EvCreateFile absPath;
                      EvReadFile absPath],
                     Fulfilled (Warning (parseWarning absPath e)))).
  { unfold load, loadBody. unfold bind at 1. fold absPath.
    rewrite Htruthy. simpl negb. cbv iota.
    unfold loadSource, readsContents. rewrite Hjs. simpl orb. cbv iota.
    unfold await. rewrite Hread. simpl. rewrite Hparse. reflexivity. }
  rewrite Hload. simpl. split; [reflexivity |]. split; [discriminate | reflexivity].
Qed.

Lemma loadExpand_marks (request : string) (r : Resolved.t) (options : Options.t)
    (f1 : File.t) (t : list Event) (f2 : File.t) :
  expansionOf request r options f1 = (t, Next f2) ->
  timesMarked t = (if expandsModuleGlobs isNodeModule request r options f1 then 1 else 0)%nat
  /\ (expandsModuleGlobs isNodeModule request r options f1 = true -> expansionRan t = true).
Proof.
  intros H. apply loadExpand_Next_inv in H as (_ & _ & Htrace).
  unfold expandsModuleGlobs.
  destruct (packageBoundary isNodeModule request r) as [[pkg pkgPath] |].
  - destruct Htrace as (extra & -> & Hextra). rewrite timesMarked_app.
    assert (Hnone : timesMarked extra = 0%nat).
    { destruct Hextra as [-> | (patterns & -> & _)]; reflexivity. }
    rewrite Hnone.
    destruct (expandVariable options f1 || expandAll options); simpl;
      (split; [reflexivity | intros H; first [discriminate H | reflexivity]]).
  - rewrite Htrace. destruct (expandVariable options f1).
    + destruct (inheritedContext options); simpl;
        (split; [reflexivity | intros H; first [discriminate H | reflexivity]]).
    + simpl. split; [reflexivity | discriminate].
Qed.

Lemma expandsModuleGlobs_ext (request : string) (r : Resolved.t) (options : Options.t)
    (f g : File.t) :
  File.variableImports g = File.variableImports f ->
  expandsModuleGlobs isNodeModule request r options g
  = expandsModuleGlobs isNodeModule request r options f.
Proof. intros H. unfold expandsModuleGlobs, expandVariable. rewrite H. reflexivity. Qed.

(** C5, as the code has it: for every load that returns a File,
    [contextExpanded] is set at most once, and it is true exactly when it
    was set, which is exactly when [load] took one of its two exclusive
    branches that expand the module globs: the package branch under
    variable or all expansion, or else the inherited-context branch.
    Whenever it is true a glob expansion has run. *)
Theorem load_marks_expansion_once
    (workingDirectory request : string) (options : Options.t)
    (t : list Event) (file : File.t) :
  loader workingDirectory request options = (t, Fulfilled (Loaded file)) ->
  let r := resolve resolver workingDirectory request in
  (timesMarked t <= 1)%nat
  /\ (File.contextExpanded file = true <-> timesMarked t = 1%nat)
  /\ (File.contextExpanded file = true <->
      expandsModuleGlobs isNodeModule request r options file = true)
  /\ (File.contextExpanded file = true -> expansionRan t = true).
Proof.
  intros Hload r.
  apply load_Loaded_inv in Hload as (_ & t1 & f1 & t2 & f2 & t3 & Hsrc & Hexp & Hstat & ->).
  fold r in Hsrc, Hexp.
  apply loadSource_Next_inv in Hsrc as (_ & Hctx1 & _ & _ & Hread & _).
  pose proof (loadExpand_marks _ _ _ _ _ _ Hexp) as (Hmarks & Hran).
  apply loadExpand_Next_inv in Hexp as ((_ & _ & Hvar2 & _) & Hctx2 & _).
  apply loadStat_Next_inv in Hstat as (_ & Hctx3 & Hvar3 & _ & _ & stats & _ & _ & Hlink).
  rewrite Hctx1 in Hctx2. simpl in Hctx2.
  assert (Hext : expandsModuleGlobs isNodeModule request r options file
                 = expandsModuleGlobs isNodeModule request r options f1).
  { apply expandsModuleGlobs_ext. congruence. }
  assert (Ht1 : timesMarked t1 = 0%nat).
  { destruct (readsContents _ options).
    - destruct Hread as (text & _ & _ & ->). reflexivity.
    - destruct Hread as (_ & ->). reflexivity. }
  assert (Ht3 : timesMarked t3 = 0%nat).
  { destruct (Stats.isSymbolicLink stats).
    - destruct Hlink as (? & ? & _ & _ & _ & _ & ->). reflexivity.
    - destruct Hlink as (_ & _ & ->). reflexivity. }
  assert (Hall : timesMarked (EvResolve workingDirectory request :: t1 ++ t2 ++ t3)
                 = timesMarked t2).
  { change (EvResolve workingDirectory request :: t1 ++ t2 ++ t3)%list
      with ([EvResolve workingDirectory request] ++ t1 ++ t2 ++ t3)%list.
    rewrite !timesMarked_app, Ht1, Ht3. simpl. lia. }
  rewrite Hall, Hmarks, Hext, Hctx3, Hctx2.
  destruct (expandsModuleGlobs isNodeModule request r options f1).
  - split; [lia |]. split; [tauto |]. split; [tauto |].
    intros _. unfold expansionRan in *. simpl.
    rewrite !existsb_app, (Hran eq_refl), orb_true_r. reflexivity.
  - split; [lia |]. split; [split; intros H; discriminate H |].
    split; [tauto | discriminate].
Qed.

Lemma fst_bind {A B : Type} (m : Async A) (k : A -> Async B) :
  fst (bind m k)
  = (fst m ++ match snd m with
              | Next a => fst (k a)
              | _ => []
              end)%list.
Proof.
  destruct m as [t [a | w | e]]; simpl.
  - destruct (k a); reflexivity.
  - rewrite app_nil_r. reflexivity.
  - rewrite app_nil_r. reflexivity.
Qed.

Lemma fst_expand (file : File.t) (fileDir baseDir : string) (globs : list string) :
  fst (expandOn file fileDir baseDir globs) = [EvGlobby baseDir globs].
Proof.
  unfold expand. rewrite fst_bind. unfold await. simpl.
  destruct (globby globs baseDir); reflexivity.
Qed.

(** The stat stage calls neither globby nor sets the flag, however it
    ends. *)
Lemma loadStat_trace (options : Options.t) (file : File.t) :
  timesMarked (fst (statOf options file)) = 0%nat
  /\ expansionRan (fst (statOf options file)) = false.
Proof.
  unfold loadStat.
  set (f3 := if negb (Options.loadContent options) then File.set_contents file None
             else file).
  rewrite fst_bind. unfold await. simpl.
  destruct (lstat (File.absPath f3)) as [stats | e]; simpl; [| split; reflexivity].
  rewrite fst_bind. destruct (Stats.isSymbolicLink stats); simpl.
  - destruct (realpath (File.absPath f3)), (stat (File.absPath f3)); simpl;
      split; reflexivity.
  - split; reflexivity.
Qed.

(** The trace of the expansion stage, however it ends. *)
Lemma loadExpand_trace (request : string) (r : Resolved.t) (options : Options.t)
    (f1 : File.t) :
  let t := fst (expansionOf request r options f1) in
  match packageBoundary isNodeModule request r with
  | Some (pkg, pkgPath) =>
      if expandVariable options f1 || expandAll options
      then exists rest,
             t = EvGlobby (Path.dirname pkgPath) (nodeModuleGlobs (Some pkg)) :: rest
      else timesMarked t = 0%nat
  | None =>
      match (if expandVariable options f1 then inheritedContext options else None) with
      | Some ctx =>
          exists rest,
            t = EvGlobby (Context.moduleRoot ctx)
                         (nodeModuleGlobs (Some (Package.Make (Context.globs ctx) None)))
                :: rest
      | None => t = []
      end
  end.
Proof.
  unfold loadExpand.
  destruct (packageBoundary isNodeModule request r) as [[pkg pkgPath] |].
  - rewrite fst_bind.
    destruct (expandVariable options f1 || expandAll options).
    + rewrite fst_bind, fst_expand. simpl. eexists. reflexivity.
    + simpl. destruct (0 <? List.length (extraGlobs _))%nat.
      * rewrite fst_expand. reflexivity.
      * reflexivity.
  - destruct (if expandVariable options f1 then inheritedContext options else None)
      as [ctx |].
    + rewrite fst_bind, fst_expand. simpl. eexists. reflexivity.
    + reflexivity.
Qed.

(** The trace of a load that got as far as the expansion stage. *)
Lemma load_trace_from_source (workingDirectory request : string) (options : Options.t)
    (t1 : list Event) (f1 : File.t) :
  let r := resolve resolver workingDirectory request in
  Js.truthy (Resolved.absPath r) = true ->
  sourceOf (Resolved.absPath r) options = (t1, Next f1) ->
  fst (loader workingDirectory request options)
  = (EvResolve workingDirectory request
     :: t1 ++ fst (expansionOf request r options f1)
        ++ match snd (expansionOf request r options f1) with
           | Next f2 => fst (statOf options f2)
           | _ => []
           end)%list.
Proof.
  intros r Htruthy Hsrc. unfold load.
  assert (Hsettle : forall m, fst (settle m) = fst m).
  { intros [t [a | w | e]]; reflexivity. }
  rewrite Hsettle. unfold loadBody. rewrite fst_bind. simpl. fold r.
  rewrite Htruthy. simpl. rewrite fst_bind, Hsrc. simpl.
  rewrite fst_bind. reflexivity.
Qed.

(** C7: take any load that resolves its request and gets as far as the
    expansion policy, with the File [f1] it has built by then. Variable
    expansion is requested exactly when [options.expand] is [variable] and
    the extractor, run on the contents read from the JS-like file,
    reported a non-literal import; all expansion is requested exactly when
    [options.expand] is [all]. In the package branch either request alone
    makes [load] call globby with the package's allow-list globs at the
    package directory, with no dynamic import needed under [all], and a
    load that returns a File has [contextExpanded] set exactly when one
    of the two was requested. Outside the package branch only a variable
    request with an unexpanded inherited context expands. *)
Theorem load_expansion_trigger
    (workingDirectory request : string) (options : Options.t)
    (t1 : list Event) (f1 : File.t) :
  let r := resolve resolver workingDirectory request in
  let absPath := Resolved.absPath r in
  let t := fst (loader workingDirectory request options) in
  absPath <> "" ->
  sourceOf absPath options = (t1, Next f1) ->
  (expandVariable options f1 = true <->
     Options.expand options = ExpandVariable
     /\ isJs absPath options = true
     /\ exists text parsed,
          readFile absPath = Fulfilled text
          /\ gatherDependencies (Some text) (Js.endsWith absPath ".mjs") = Fulfilled parsed
          /\ ParseResult.variable parsed = true)
  /\ (expandAll options = true <-> Options.expand options = ExpandAll)
  /\ (forall pkg pkgPath,
        packageBoundary isNodeModule request r = Some (pkg, pkgPath) ->
        (Options.expand options = ExpandAll \/ expandVariable options f1 = true ->
           exists rest,
             t = (EvResolve workingDirectory request
                  :: t1 ++ EvGlobby (Path.dirname pkgPath) (nodeModuleGlobs (Some pkg))
                     :: rest)%list)
        /\ (Options.expand options <> ExpandAll -> expandVariable options f1 = false ->
              timesMarked t = 0%nat)
        /\ (forall file,
              snd (loader workingDirectory request options) = Fulfilled (Loaded file) ->
              (File.contextExpanded file = true <->
                 Options.expand options = ExpandAll \/ expandVariable options f1 = true)))
  /\ (packageBoundary isNodeModule request r = None ->
      (forall ctx,
         expandVariable options f1 = true -> inheritedContext options = Some ctx ->
         exists rest,
           t = (EvResolve workingDirectory request
                :: t1 ++ EvGlobby (Context.moduleRoot ctx)
                           (nodeModuleGlobs (Some (Package.Make (Context.globs ctx) None)))
                   :: rest)%list)
      /\ (expandVariable options f1 = false \/ inheritedContext options = None ->
            expansionRan t = false)).
Proof.
  intros r absPath t Habs Hsrc.
  assert (Htruthy : Js.truthy absPath = true).
  { destruct (Js.truthy absPath) eqn:Ht; [reflexivity |].
    apply truthy_false_iff in Ht. contradiction. }
  assert (Ht : t = (EvResolve workingDirectory request
                    :: t1 ++ fst (expansionOf request r options f1)
                       ++ match snd (expansionOf request r options f1) with
                          | Next f2 => fst (statOf options f2)
                          | _ => []
                          end)%list).
  { subst t. apply load_trace_from_source; assumption. }
  pose proof (loadExpand_trace request r options f1) as Htrace. simpl in Htrace.
  pose proof (loadSource_Next_inv _ _ _ _ Hsrc) as (_ & Hctx1 & _ & _ & Hread & Hparse).
  assert (Hreq : expandVariable options f1 || expandAll options = true <->
                 Options.expand options = ExpandAll \/ expandVariable options f1 = true).
  { unfold expandAll. rewrite orb_true_iff, ExpandMode_eqb_eq. tauto. }
  assert (Htail : forall s : Step File.t,
            timesMarked (match s with Next f2 => fst (statOf options f2) | _ => [] end) = 0%nat
            /\ expansionRan (match s with Next f2 => fst (statOf options f2) | _ => [] end)
               = false).
  { intros [f2 | w | e]; [apply loadStat_trace | split; reflexivity..]. }
  assert (Ht1 : timesMarked t1 = 0%nat /\ expansionRan t1 = false).
  { destruct (readsContents absPath options).
    - destruct Hread as (text & _ & _ & ->). split; reflexivity.
    - destruct Hread as (_ & ->). split; reflexivity. }
  split; [| split; [apply ExpandMode_eqb_eq | split]].
  - unfold expandVariable. rewrite andb_true_iff, ExpandMode_eqb_eq.
    unfold readsContents in Hread.
    destruct (isJs absPath options); simpl in Hread.
    + destruct Hread as (text & Htext & Hcont & _).
      destruct Hparse as (parsed & Hparsed & ->). rewrite Hcont in Hparsed.
      split.
      * intros [Hmode Hflag]. repeat split; auto. exists text, parsed.
        destruct (ParseResult.variable parsed); [auto | discriminate].
      * intros (Hmode & _ & text' & parsed' & Htext' & Hparsed' & Hflag).
        split; [exact Hmode |].
        assert (text' = text) by congruence. subst text'.
        assert (parsed' = parsed) by congruence. subst parsed'.
        rewrite Hflag. reflexivity.
    + rewrite Hparse. simpl. split; [intros [_ H] | intros (_ & H & _)]; discriminate H.
  - intros pkg pkgPath Hpkg. rewrite Hpkg in Htrace. split; [| split].
    + intros Hrequested. apply Hreq in Hrequested. rewrite Hrequested in Htrace.
      destruct Htrace as (rest & Hrest). rewrite Ht, Hrest.
      eexists. simpl. reflexivity.
    + intros Hmode Hv.
      assert (Hnot : expandVariable options f1 || expandAll options = false).
      { apply not_true_is_false. intros Hor.
        apply Hreq in Hor as [Hall | Hv']; [contradiction | congruence]. }
      rewrite Hnot in Htrace. rewrite Ht.
      change (EvResolve workingDirectory request :: ?l)%list
        with ([EvResolve workingDirectory request] ++ l)%list.
      rewrite !timesMarked_app, Htrace, (proj1 Ht1), (proj1 (Htail _)). reflexivity.
    + intros file Hloaded.
      assert (Hload : loader workingDirectory request options = (t, Fulfilled (Loaded file))).
      { subst t. rewrite <- Hloaded. destruct (loader _ _ _); reflexivity. }
      apply load_Loaded_inv in Hload
        as (_ & t1' & f1' & t2 & f2 & t3 & Hsrc' & Hexp & Hstat & _).
      fold r in Hsrc', Hexp. fold absPath in Hsrc'.
      assert (f1' = f1) by congruence. subst f1'.
      apply loadExpand_Next_inv in Hexp as (_ & Hctx2 & _).
      apply loadStat_Next_inv in Hstat as (_ & Hctx3 & _).
      rewrite Hctx3, Hctx2, Hctx1. simpl. unfold expandsModuleGlobs. rewrite Hpkg.
      exact Hreq.
  - intros Hnone. rewrite Hnone in Htrace. split.
    + intros ctx Hv Hctx. rewrite Hv, Hctx in Htrace.
      destruct Htrace as (rest & Hrest). rewrite Ht, Hrest.
      eexists. simpl. reflexivity.
    + intros Hno.
      assert (Hempty : fst (expansionOf request r options f1) = []).
      { destruct Hno as [Hv | Hctx].
        - rewrite Hv in Htrace. exact Htrace.
        - rewrite Hctx in Htrace. destruct (expandVariable options f1); exact Htrace. }
      rewrite Ht, Hempty. unfold expansionRan in *. simpl.
      rewrite existsb_app, (proj2 Ht1), (proj2 (Htail _)). reflexivity.
Qed.

(** *** The claims about [expand] *)


Lemma expandDeps_again (file : File.t) (fileDir baseDir : string) (files : list string) :
  let once := expandDeps ensureDottedRelative file fileDir baseDir files in
  expandDeps ensureDottedRelative (File.set_deps file once) fileDir baseDir files = once.
Proof.
  intros once. unfold expandDeps at 1. simpl.
  set (keys := globKeys ensureDottedRelative (File.absPath file) fileDir baseDir files).
  set (globbed := fold_left addDep keys (File.deps file)).
  assert (Honce : once = reconcile (File.package file) globbed) by reflexivity.
  assert (Hkeys : fold_left addDep keys once = once).
  { apply fold_addDep_fixed. intros key Hin.
    assert (Hglobbed : added (globbed !! key) key = globbed !! key).
    { subst globbed. rewrite fold_addDep_in by exact Hin. apply added_idem. }
    rewrite Honce, (reconcile_settled _ _ _ Hglobbed). exact Hglobbed. }
  rewrite Hkeys. apply reconcile_fixed.
  intros manifest declared name Hpkg Hdecl Hname.
  destruct (covered (objectKeys globbed) name) eqn:Hcov.
  - left. apply covered_iff in Hcov as (curDep & Hin & Hstarts).
    apply covered_iff. exists curDep. split; [| exact Hstarts].
    apply objectKeys_In. rewrite Honce. apply reconcile_mono, objectKeys_In, Hin.
  - right.
    assert (Hthen : once !! name = added (globbed !! name) name).
    { rewrite Honce. unfold reconcile. rewrite Hpkg, Hdecl, fold_reconcileStep.
      apply fold_addDep_in, filter_In. split; [exact Hname |].
      rewrite Hcov. reflexivity. }
    rewrite Hthen. apply added_idem.
Qed.

(** C4: expanding a File a second time with the same [fileDir], [baseDir]
    and glob patterns, over the same file-system snapshot, gives back the
    File of the first expansion unchanged: no dependency key is added and
    no value is replaced. An expansion never replaces a resolved value by
    an unresolved one: every key that is resolved before it is resolved
    to the same File after it. *)
Theorem expand_idempotent
    (file : File.t) (fileDir baseDir : string) (globs files : list string) :
  globby globs baseDir = Fulfilled files ->
  exists once,
    expandOn file fileDir baseDir globs = ([EvGlobby baseDir globs], Next once)
    /\ expandOn once fileDir baseDir globs = ([EvGlobby baseDir globs], Next once)
    /\ (forall key ref,
          File.deps file !! key = Some (Some ref) -> File.deps once !! key = Some (Some ref)).
Proof.
  intros Hglob. eexists. split; [apply expand_fulfilled, Hglob |]. split.
  - rewrite (expand_fulfilled _ _ _ _ _ Hglob). rewrite expandDeps_again. reflexivity.
  - intros key ref Hres. simpl. unfold expandDeps.
    apply reconcile_resolved, fold_addDep_resolved, Hres.
Qed.

(** *** Further properties of [expand] *)

Lemma expandDeps_keeps (file : File.t) (fileDir baseDir : string) (files : list string)
    (key : string) (v : option FileRef) :
  File.deps file !! key = Some v ->
  expandDeps ensureDottedRelative file fileDir baseDir files !! key = Some v.
Proof. intros Hv. unfold expandDeps. apply reconcile_keeps, fold_addDep_keeps, Hv. Qed.

Lemma expandDeps_cases (file : File.t) (fileDir baseDir : string) (files : list string)
    (key : string) (v : option FileRef) :
  expandDeps ensureDottedRelative file fileDir baseDir files !! key = Some v ->
  File.deps file !! key = Some v
  \/ (File.deps file !! key = None /\ freshValue key = Some v
      /\ (In key (globKeys ensureDottedRelative (File.absPath file) fileDir baseDir files)
          \/ exists manifest declared,
               File.package file = Some manifest
               /\ Package.dependencies manifest = Some declared
               /\ is_Some (declared !! key))).
Proof.
  unfold expandDeps. intros Hv.
  apply reconcile_cases in Hv
    as [Hv | (Hnone & Hfresh & manifest & declared & Hpkg & Hdecl & Hkey & _)].
  - apply fold_addDep_cases in Hv as [Hv | (Hnone & Hfresh & Hin)]; auto 6.
  - right. split; [| split; [exact Hfresh |]].
    + destruct (File.deps file !! key) as [w |] eqn:Hw; [| reflexivity].
      rewrite (fold_addDep_keeps _ _ _ _ Hw) in Hnone. discriminate.
    + right. exists manifest, declared. auto.
Qed.


(** X2: every key of [file.deps] after an expansion was there before, or is
    a glob match made relative to [fileDir] that passed the filter, or is
    a dependency name declared by the manifest of the File. *)
Theorem expand_key_provenance
    (file : File.t) (fileDir baseDir : string) (globs files : list string) :
  globby globs baseDir = Fulfilled files ->
  exists file',
    expandOn file fileDir baseDir globs = ([EvGlobby baseDir globs], Next file')
    /\ forall key,
         is_Some (File.deps file' !! key) ->
         is_Some (File.deps file !! key)
         \/ (exists dep,
               In dep files
               /\ key = ensureDottedRelative fileDir (Path.join baseDir dep)
               /\ Path.join baseDir key <> File.absPath file)
         \/ (exists manifest declared,
               File.package file = Some manifest
               /\ Package.dependencies manifest = Some declared
               /\ is_Some (declared !! key)).
Proof.
  intros Hglob. eexists. split; [apply expand_fulfilled, Hglob |]. simpl.
  intros key [v Hv].
  apply expandDeps_cases in Hv as [Hv | (_ & _ & [Hin | Hdecl])].
  - left. eauto.
  - right. left. unfold globKeys in Hin.
    apply filter_In in Hin as [Hin Hkeep]. apply in_map_iff in Hin as (dep & <- & Hdep).
    exists dep. split; [exact Hdep |]. split; [reflexivity |].
    apply negb_true_iff, String.eqb_neq in Hkeep. congruence.
  - right. right. exact Hdecl.
Qed.

(** X3: every glob match whose key, joined to [baseDir], differs from
    the File's own path is handled as an addition of that key: a key that
    was there keeps its value, and one that was not gets what an addition
    leaves. For a key that is not the name of a member of
    [Object.prototype], as every explicitly relative path is, this means
    that it is a key of [file.deps] after the expansion, and that it is
    unresolved there unless it was a key before. *)
Theorem expand_inserts_glob_matches
    (file : File.t) (fileDir baseDir : string) (globs files : list string) :
  globby globs baseDir = Fulfilled files ->
  exists file',
    expandOn file fileDir baseDir globs = ([EvGlobby baseDir globs], Next file')
    /\ forall dep,
         In dep files ->
         let relDep := ensureDottedRelative fileDir (Path.join baseDir dep) in
         Path.join baseDir relDep <> File.absPath file ->
         File.deps file' !! relDep = added (File.deps file !! relDep) relDep
         /\ (isPrototypeMember relDep = false ->
             is_Some (File.deps file' !! relDep)
             /\ (File.deps file !! relDep = None -> File.deps file' !! relDep = Some None))
         /\ (Js.startsWith relDep "." = true -> isPrototypeMember relDep = false).
Proof.
  intros Hglob. eexists. split; [apply expand_fulfilled, Hglob |]. simpl.
  intros dep Hdep Hother.
  set (relDep := ensureDottedRelative fileDir (Path.join baseDir dep)) in *.
  assert (Hin : In relDep
                  (globKeys ensureDottedRelative (File.absPath file) fileDir baseDir files)).
  { unfold globKeys. apply filter_In. split.
    - apply in_map_iff. exists dep. auto.
    - apply negb_true_iff, String.eqb_neq. congruence. }
  assert (Hglobbed : fold_left addDep
                       (globKeys ensureDottedRelative (File.absPath file) fileDir baseDir files)
                       (File.deps file) !! relDep
                     = added (File.deps file !! relDep) relDep)
    by (apply fold_addDep_in, Hin).
  assert (Hafter : expandDeps ensureDottedRelative file fileDir baseDir files !! relDep
                   = added (File.deps file !! relDep) relDep).
  { unfold expandDeps. rewrite reconcile_settled; [exact Hglobbed |].
    rewrite Hglobbed. apply added_idem. }
  split; [exact Hafter |]. split.
  - intros Hordinary. rewrite Hafter.
    destruct (File.deps file !! relDep) as [v |]; simpl.
    + split; [eauto | discriminate].
    + rewrite (freshValue_ordinary _ Hordinary). split; [eauto | reflexivity].
  - apply dotted_not_member.
Qed.

(** X4: what an expansion computes depends only on which paths globby
    matched, not on their order nor on repeated matches. *)
Theorem expandDeps_order_irrelevant
    (file : File.t) (fileDir baseDir : string) (files files' : list string) :
  (forall dep, In dep files <-> In dep files') ->
  expandDeps ensureDottedRelative file fileDir baseDir files
  = expandDeps ensureDottedRelative file fileDir baseDir files'.
Proof.
  intros Hsame. unfold expandDeps. f_equal. apply fold_addDep_same_keys.
  intros key. unfold globKeys. rewrite !filter_In, !in_map_iff.
  split; intros [(dep & Hkey & Hdep) Hkeep]; (split; [| exact Hkeep]);
    exists dep; (split; [exact Hkey | apply Hsame, Hdep]).
Qed.

(** *** Further properties of [load] *)

(** What the File is made of when the source stage goes on. *)
Lemma loadSource_fresh (absPath : string) (options : Options.t)
    (t : list Event) (file : File.t) :
  sourceOf absPath options = (t, Next file) ->
  File.package file = None
  /\ File.moduleRoot file = None
  /\ (if isJs absPath options
      then exists parsed,
             gatherDependencies (File.contents file) (Js.endsWith absPath ".mjs")
               = Fulfilled parsed
             /\ File.deps file = ParseResult.deps parsed
      else File.deps file = ∅).
Proof.
  unfold loadSource. simpl.
  assert (Hassign : forall d : FileMap, objectAssign ∅ d = d).
  { intros d. unfold objectAssign. apply map_eq. intros key.
    rewrite lookup_union, lookup_empty. destruct (d !! key); reflexivity. }
  destruct (readsContents absPath options); simpl.
  - destruct (readFile absPath) as [text | e]; simpl; [| discriminate].
    destruct (isJs absPath options); simpl.
    + destruct (gatherDependencies (Some text) _) as [parsed | e] eqn:Hparse; simpl;
        [| discriminate].
      intros [= <- <-]. simpl. rewrite Hassign. eauto.
    + intros [= <- <-]. simpl. auto.
  - destruct (isJs absPath options); simpl.
    + destruct (gatherDependencies None _) as [parsed | e] eqn:Hparse; simpl;
        [| discriminate].
      intros [= <- <-]. simpl. rewrite Hassign. eauto.
    + intros [= <- <-]. simpl. auto.
Qed.

(** The trace of the source stage, however it ends. *)
Lemma loadSource_trace (absPath : string) (options : Options.t) :
  fst (sourceOf absPath options)
  = EvCreateFile absPath
    :: (if readsContents absPath options then [EvReadFile absPath] else []).
Proof.
  unfold loadSource. rewrite fst_bind. simpl. rewrite fst_bind.
  destruct (readsContents absPath options); simpl.
  - destruct (readFile absPath) as [text | e]; simpl; [| reflexivity].
    destruct (isJs absPath options); [| reflexivity].
    destruct (gatherDependencies _ _); reflexivity.
  - destruct (isJs absPath options); [| reflexivity].
    destruct (gatherDependencies _ _); reflexivity.
Qed.

(** How the source stage can end. *)
Lemma loadSource_outcome (absPath : string) (options : Options.t) :
  match snd (sourceOf absPath options) with
  | Next _ => True
  | Return w =>
      isJs absPath options = true
      /\ exists text e,
           readFile absPath = Fulfilled text
           /\ gatherDependencies (Some text) (Js.endsWith absPath ".mjs") = Rejected e
           /\ w = parseWarning absPath e
  | Throw e => readsContents absPath options = true /\ readFile absPath = Rejected e
  end.
Proof.
  unfold loadSource, readsContents. rewrite snd_bind. simpl. rewrite snd_bind.
  destruct (isJs absPath options) eqn:Hjs; simpl.
  - destruct (readFile absPath) as [text | e]; simpl; [| auto].
    destruct (gatherDependencies (Some text) _) as [parsed | e] eqn:Hparse; simpl;
      [exact I |].
    split; [reflexivity |]. exists text, e. auto.
  - destruct (Js.endsWith absPath "json"); simpl; [| exact I].
    destruct (readFile absPath) as [text | e]; simpl; [exact I | auto].
Qed.

Lemma expand_outcome (file : File.t) (fileDir baseDir : string) (globs : list string) :
  match snd (expandOn file fileDir baseDir globs) with
  | Next _ => True
  | Return _ => False
  | Throw e => globby globs baseDir = Rejected e
  end.
Proof.
  unfold expand. rewrite snd_bind. unfold await. simpl.
  destruct (globby globs baseDir); simpl; auto.
Qed.

(** How the expansion stage can end: it never returns a warning, and it
    throws only what globby rejected with. *)
Lemma loadExpand_outcome (request : string) (r : Resolved.t) (options : Options.t)
    (f1 : File.t) :
  match snd (expansionOf request r options f1) with
  | Next _ => True
  | Return _ => False
  | Throw e => exists patterns cwd, globby patterns cwd = Rejected e
  end.
Proof.
  assert (Hexpand : forall file fileDir baseDir globs (k : File.t -> Async File.t),
            (forall f, match snd (k f) with
                       | Next _ => True
                       | Return _ => False
                       | Throw e => exists patterns cwd, globby patterns cwd = Rejected e
                       end) ->
            match snd (bind (expandOn file fileDir baseDir globs) k) with
            | Next _ => True
            | Return _ => False
            | Throw e => exists patterns cwd, globby patterns cwd = Rejected e
            end).
  { intros file fileDir baseDir globs k Hk. rewrite snd_bind.
    pose proof (expand_outcome file fileDir baseDir globs) as Hout.
    destruct (snd (expandOn file fileDir baseDir globs)) as [f | w | e];
      [apply Hk | contradiction | eauto]. }
  assert (Hlast : forall file fileDir baseDir globs,
            match snd (expandOn file fileDir baseDir globs) with
            | Next _ => True
            | Return _ => False
            | Throw e => exists patterns cwd, globby patterns cwd = Rejected e
            end).
  { intros file fileDir baseDir globs.
    pose proof (expand_outcome file fileDir baseDir globs) as Hout.
    destruct (snd (expandOn file fileDir baseDir globs)); eauto. }
  assert (Hextra : forall pkgDir f,
            match snd (if (0 <? List.length (extraGlobs f))%nat
                       then expandOn f (Path.dirname (File.absPath f1)) pkgDir (extraGlobs f)
                       else ret f) with
            | Next _ => True
            | Return _ => False
            | Throw e => exists patterns cwd, globby patterns cwd = Rejected e
            end).
  { intros pkgDir f. destruct (0 <? List.length (extraGlobs f))%nat;
      [apply Hlast | exact I]. }
  unfold loadExpand.
  destruct (packageBoundary isNodeModule request r) as [[pkg pkgPath] |].
  - rewrite snd_bind.
    destruct (expandVariable options f1 || expandAll options).
    + pose proof (Hexpand
                    (File.set_moduleRoot
                       (File.set_deps (File.set_package f1 (Some pkg))
                          (<[ensureDottedRelative (Path.dirname (File.absPath f1)) pkgPath
                             := None]> (File.deps (File.set_package f1 (Some pkg)))))
                       (Some (Path.dirname pkgPath)))
                    (Path.dirname (File.absPath f1)) (Path.dirname pkgPath)
                    (nodeModuleGlobs (Some pkg)) markExpanded
                    (fun f => I)) as Hfirst.
      simpl in Hfirst.
      destruct (snd (bind _ markExpanded)) as [f | w | e]; [| contradiction | exact Hfirst].
      apply Hextra.
    + simpl. apply Hextra.
  - destruct (if expandVariable options f1 then inheritedContext options else None)
      as [ctx |]; [| exact I].
    apply Hexpand. intros f. exact I.
Qed.

(** How the stat stage can end. *)
Lemma loadStat_outcome (options : Options.t) (file : File.t) :
  match snd (statOf options file) with
  | Next _ => True
  | Return _ => False
  | Throw e =>
      lstat (File.absPath file) = Rejected e
      \/ realpath (File.absPath file) = Rejected e
      \/ stat (File.absPath file) = Rejected e
  end.
Proof.
  unfold loadStat.
  set (f3 := if negb (Options.loadContent options) then File.set_contents file None
             else file).
  assert (Habs : File.absPath f3 = File.absPath file).
  { subst f3. destruct (Options.loadContent options); reflexivity. }
  rewrite Habs. clearbody f3.
  rewrite snd_bind. unfold await. simpl.
  destruct (lstat (File.absPath file)) as [stats | e]; simpl; [| auto].
  rewrite snd_bind. destruct (Stats.isSymbolicLink stats); simpl; [| exact I].
  destruct (realpath (File.absPath file)) as [target | e],
           (stat (File.absPath file)) as [targetStats | e']; simpl; auto.
Qed.

(** How the promise of [load] settles, stage by stage. *)
Lemma load_outcome (workingDirectory request : string) (options : Options.t) :
  let r := resolve resolver workingDirectory request in
  snd (loader workingDirectory request options)
  = if Js.truthy (Resolved.absPath r) then
      match snd (sourceOf (Resolved.absPath r) options) with
      | Next f1 =>
          match snd (expansionOf request r options f1) with
          | Next f2 =>
              match snd (statOf options f2) with
              | Next file => Fulfilled (Loaded file)
              | Return w => Fulfilled (Warning w)
              | Throw e => Rejected e
              end
          | Return w => Fulfilled (Warning w)
          | Throw e => Rejected e
          end
      | Return w => Fulfilled (Warning w)
      | Throw e => Rejected e
      end
    else Fulfilled (Warning (Resolved.warning r)).
Proof.
  intros r. unfold load.
  assert (Hsettle : forall m, snd (settle m)
                              = match snd m with
                                | Next file => Fulfilled (Loaded file)
                                | Return w => Fulfilled (Warning w)
                                | Throw e => Rejected e
                                end).
  { intros [t [a | w | e]]; reflexivity. }
  rewrite Hsettle. unfold loadBody. rewrite snd_bind. simpl. fold r.
  destruct (Js.truthy (Resolved.absPath r)); simpl; [| reflexivity].
  rewrite snd_bind.
  destruct (snd (sourceOf (Resolved.absPath r) options)) as [f1 | w | e];
    [| reflexivity..].
  rewrite snd_bind.
  destruct (snd (expansionOf request r options f1)); reflexivity.
Qed.

(** What the expansion stage does to [package], [moduleRoot] and the
    entries of [deps] when it goes on. *)
Lemma loadExpand_fields (request : string) (r : Resolved.t) (options : Options.t)
    (f1 : File.t) (t : list Event) (f2 : File.t) :
  expansionOf request r options f1 = (t, Next f2) ->
  match packageBoundary isNodeModule request r with
  | Some (pkg, pkgPath) =>
      File.package f2 = Some pkg
      /\ File.moduleRoot f2 = Some (Path.dirname pkgPath)
      /\ forall key v,
           <[ensureDottedRelative (Path.dirname (File.absPath f1)) pkgPath := None]>
             (File.deps f1) !! key = Some v ->
           File.deps f2 !! key = Some v
  | None =>
      File.package f2 = File.package f1
      /\ File.moduleRoot f2 = File.moduleRoot f1
      /\ (forall key v, File.deps f1 !! key = Some v -> File.deps f2 !! key = Some v)
      /\ ((if expandVariable options f1 then inheritedContext options else None) = None ->
          f2 = f1 /\ t = [])
  end.
Proof.
  unfold loadExpand.
  destruct (packageBoundary isNodeModule request r) as [[pkg pkgPath] |].
  - intros H. apply bind_Next_inv in H as (ta & fa & tb & Ha & Hb & ->).
    set (f0 := File.set_moduleRoot
                 (File.set_deps (File.set_package f1 (Some pkg))
                    (<[ensureDottedRelative (Path.dirname (File.absPath f1)) pkgPath
                       := None]> (File.deps (File.set_package f1 (Some pkg)))))
                 (Some (Path.dirname pkgPath))) in *.
    assert (Hfa : File.package fa = Some pkg
                  /\ File.moduleRoot fa = Some (Path.dirname pkgPath)
                  /\ forall key v, File.deps f0 !! key = Some v ->
                                   File.deps fa !! key = Some v).
    { destruct (expandVariable options f1 || expandAll options).
      - apply bind_Next_inv in Ha as (tc & fc & td & Hc & Hd & ->).
        rewrite markExpanded_eq in Hd. injection Hd as <- <-.
        apply expand_Next_inv in Hc as (files & _ & _ & ->).
        split; [reflexivity |]. split; [reflexivity |].
        intros key v Hv. apply (expandDeps_keeps f0). exact Hv.
      - injection Ha as <- <-. auto. }
    destruct Hfa as (Hpkg & Hroot & Hdeps).
    destruct (0 <? List.length (extraGlobs fa))%nat.
    + apply expand_Next_inv in Hb as (files & _ & _ & ->).
      split; [exact Hpkg |]. split; [exact Hroot |].
      intros key v Hv. apply (expandDeps_keeps fa), Hdeps. exact Hv.
    + injection Hb as <- <-. auto.
  - destruct (if expandVariable options f1 then inheritedContext options else None)
      as [ctx |].
    + intros H. apply bind_Next_inv in H as (tc & fc & td & Hc & Hd & ->).
      rewrite markExpanded_eq in Hd. injection Hd as <- <-.
      apply expand_Next_inv in Hc as (files & _ & _ & ->).
      split; [reflexivity |]. split; [reflexivity |]. split; [| discriminate].
      intros key v Hv. apply (expandDeps_keeps f1). exact Hv.
    + intros [= <- <-]. auto.
Qed.

Lemma loadStat_keeps (options : Options.t) (f2 : File.t) (t : list Event) (file : File.t) :
  statOf options f2 = (t, Next file) ->
  File.package file = File.package f2 /\ File.moduleRoot file = File.moduleRoot f2.
Proof.
  unfold loadStat.
  set (f3 := if negb (Options.loadContent options) then File.set_contents f2 None else f2).
  assert (Hf3 : File.package f3 = File.package f2
                /\ File.moduleRoot f3 = File.moduleRoot f2).
  { subst f3. destruct (Options.loadContent options); simpl; auto. }
  destruct Hf3 as (Hpkg & Hroot). clearbody f3.
  intros H. apply bind_Next_inv in H as (ta & stats & tb & _ & Hb & ->).
  apply bind_Next_inv in Hb as (tc & f4 & td & Hc & Hd & ->).
  unfold ret in Hd. injection Hd as <- <-. simpl.
  destruct (Stats.isSymbolicLink stats).
  - apply bind_Next_inv in Hc as (te & pa & tf & _ & Hf & ->).
    unfold ret in Hf. injection Hf as <- <-. simpl. auto.
  - unfold ret in Hc. injection Hc as <- <-. auto.
Qed.

(** The expansion stage calls globby at most twice, and at most once
    outside the package branch, however it ends. *)
Lemma loadExpand_globs (request : string) (r : Resolved.t) (options : Options.t)
    (f1 : File.t) :
  (timesGlobbed (fst (expansionOf request r options f1))
   <= match packageBoundary isNodeModule request r with
      | Some _ => 2
      | None => 1
      end)%nat.
Proof.
  assert (Hextra : forall pkgDir f,
            (timesGlobbed
               (fst (if (0 <? List.length (extraGlobs f))%nat
                     then expandOn f (Path.dirname (File.absPath f1)) pkgDir (extraGlobs f)
                     else ret f)) <= 1)%nat).
  { intros pkgDir f. destruct (0 <? List.length (extraGlobs f))%nat.
    - rewrite fst_expand. unfold timesGlobbed. simpl. lia.
    - unfold timesGlobbed. simpl. lia. }
  unfold loadExpand.
  destruct (packageBoundary isNodeModule request r) as [[pkg pkgPath] |].
  - rewrite fst_bind, timesGlobbed_app.
    destruct (expandVariable options f1 || expandAll options).
    + rewrite fst_bind, fst_expand.
      destruct (snd (bind _ markExpanded)) as [f | w | e].
      * pose proof (Hextra (Path.dirname pkgPath) f) as Hle.
        destruct (snd (expandOn _ _ _ _)); exact (le_n_S _ _ Hle).
      * destruct (snd (expandOn _ _ _ _)); unfold timesGlobbed; simpl; lia.
      * destruct (snd (expandOn _ _ _ _)); unfold timesGlobbed; simpl; lia.
    + exact (le_S _ _ (Hextra (Path.dirname pkgPath) _)).
  - destruct (if expandVariable options f1 then inheritedContext options else None)
      as [ctx |].
    + rewrite fst_bind, fst_expand, timesGlobbed_app.
      destruct (snd (expandOn _ _ _ _)); unfold timesGlobbed; simpl; lia.
    + unfold timesGlobbed. simpl. lia.
Qed.

(** X5: a returned File carries [package] and [moduleRoot] together: both
    are set, to the manifest the resolver reported and to the directory of
    its path, exactly when the request is a node module resolved with a
    manifest; otherwise both stay absent. *)
Theorem load_package_and_moduleRoot
    (workingDirectory request : string) (options : Options.t)
    (t : list Event) (file : File.t) :
  loader workingDirectory request options = (t, Fulfilled (Loaded file)) ->
  match packageBoundary isNodeModule request (resolve resolver workingDirectory request) with
  | Some (pkg, pkgPath) =>
      File.package file = Some pkg /\ File.moduleRoot file = Some (Path.dirname pkgPath)
  | None => File.package file = None /\ File.moduleRoot file = None
  end.
Proof.
  intros Hload.
  apply load_Loaded_inv in Hload as (_ & t1 & f1 & t2 & f2 & t3 & Hsrc & Hexp & Hstat & _).
  apply loadSource_fresh in Hsrc as (Hpkg1 & Hroot1 & _).
  apply loadExpand_fields in Hexp. apply loadStat_keeps in Hstat as (Hpkg3 & Hroot3).
  destruct (packageBoundary isNodeModule request _) as [[pkg pkgPath] |].
  - destruct Hexp as (Hpkg2 & Hroot2 & _). split; congruence.
  - destruct Hexp as (Hpkg2 & Hroot2 & _). split; congruence.
Qed.

(** X6: in the package branch the manifest itself is always a dependency of
    the returned File, under its path relative to the File's directory,
    and it is unresolved, whatever the expansions added. *)
Theorem load_tracks_manifest
    (workingDirectory request : string) (options : Options.t)
    (t : list Event) (file : File.t) (pkg : Package.t) (pkgPath : string) :
  loader workingDirectory request options = (t, Fulfilled (Loaded file)) ->
  packageBoundary isNodeModule request (resolve resolver workingDirectory request)
    = Some (pkg, pkgPath) ->
  File.deps file !! ensureDottedRelative (Path.dirname (File.absPath file)) pkgPath
  = Some None.
Proof.
  intros Hload Hboundary.
  apply load_Loaded_inv in Hload as (_ & t1 & f1 & t2 & f2 & t3 & Hsrc & Hexp & Hstat & _).
  apply loadSource_Next_inv in Hsrc as (Habs1 & _).
  pose proof (loadExpand_Next_inv _ _ _ _ _ _ Hexp) as ((Habs2 & _) & _).
  apply loadExpand_fields in Hexp. rewrite Hboundary in Hexp.
  destruct Hexp as (_ & _ & Hdeps).
  apply loadStat_Next_inv in Hstat as (Habs3 & _ & _ & Hdeps3 & _).
  rewrite Hdeps3, Habs3, Habs2. apply Hdeps. apply lookup_insert_eq.
Qed.

(** X7: every import the extractor found is a dependency of the returned
    File, with the value the extractor gave it; the one exception is a
    key equal to the manifest's relative path in the package branch,
    which is unresolved. *)
Theorem load_keeps_static_imports
    (workingDirectory request : string) (options : Options.t)
    (t : list Event) (file : File.t) :
  loader workingDirectory request options = (t, Fulfilled (Loaded file)) ->
  let r := resolve resolver workingDirectory request in
  let absPath := Resolved.absPath r in
  isJs absPath options = true ->
  exists text parsed,
    readFile absPath = Fulfilled text
    /\ gatherDependencies (Some text) (Js.endsWith absPath ".mjs") = Fulfilled parsed
    /\ forall key v,
         ParseResult.deps parsed !! key = Some v ->
         File.deps file !! key = Some v
         \/ (exists pkg pkgPath,
               packageBoundary isNodeModule request r = Some (pkg, pkgPath)
               /\ key = ensureDottedRelative (Path.dirname absPath) pkgPath
               /\ File.deps file !! key = Some None).
Proof.
  intros Hload r absPath Hjs.
  apply load_Loaded_inv in Hload as (_ & t1 & f1 & t2 & f2 & t3 & Hsrc & Hexp & Hstat & _).
  fold r in Hsrc, Hexp. fold absPath in Hsrc.
  pose proof (loadSource_Next_inv _ _ _ _ Hsrc) as (Habs1 & _ & _ & _ & Hread & _).
  apply loadSource_fresh in Hsrc as (_ & _ & Hdeps1).
  unfold readsContents in Hread. rewrite Hjs in Hread, Hdeps1. simpl in Hread.
  destruct Hread as (text & Htext & Hcont & _).
  destruct Hdeps1 as (parsed & Hparsed & Hdeps1). rewrite Hcont in Hparsed.
  exists text, parsed. split; [exact Htext |]. split; [exact Hparsed |].
  intros key v Hv. rewrite <- Hdeps1 in Hv.
  apply loadExpand_fields in Hexp.
  apply loadStat_Next_inv in Hstat as (_ & _ & _ & Hdeps3 & _). rewrite Hdeps3.
  destruct (packageBoundary isNodeModule request r) as [[pkg pkgPath] |].
  - destruct Hexp as (_ & _ & Hdeps2). rewrite Habs1 in Hdeps2.
    destruct (String.string_dec (ensureDottedRelative (Path.dirname absPath) pkgPath) key)
      as [Heq | Hne].
    + right. exists pkg, pkgPath. split; [reflexivity |]. split; [auto |].
      apply Hdeps2. rewrite <- Heq. apply lookup_insert_eq.
    + left. apply Hdeps2. rewrite lookup_insert_ne by exact Hne. exact Hv.
  - destruct Hexp as (_ & _ & Hdeps2 & _). left. apply Hdeps2, Hv.
Qed.

(** X8: outside the package branch, when variable expansion is not requested
    or there is no unexpanded inherited context, the dependencies of the
    returned File are exactly what the extractor found, and empty for a
    file that is not JS-like. *)
Theorem load_static_imports_only
    (workingDirectory request : string) (options : Options.t)
    (t : list Event) (file : File.t) :
  loader workingDirectory request options = (t, Fulfilled (Loaded file)) ->
  let r := resolve resolver workingDirectory request in
  let absPath := Resolved.absPath r in
  packageBoundary isNodeModule request r = None ->
  expandVariable options file = false \/ inheritedContext options = None ->
  if isJs absPath options
  then exists text parsed,
         readFile absPath = Fulfilled text
         /\ gatherDependencies (Some text) (Js.endsWith absPath ".mjs") = Fulfilled parsed
         /\ File.deps file = ParseResult.deps parsed
  else File.deps file = ∅.
Proof.
  intros Hload r absPath Hboundary Hno.
  apply load_Loaded_inv in Hload as (_ & t1 & f1 & t2 & f2 & t3 & Hsrc & Hexp & Hstat & _).
  fold r in Hsrc, Hexp. fold absPath in Hsrc.
  pose proof (loadSource_Next_inv _ _ _ _ Hsrc) as (_ & _ & _ & _ & Hread & _).
  apply loadSource_fresh in Hsrc as (_ & _ & Hdeps1).
  pose proof (loadExpand_Next_inv _ _ _ _ _ _ Hexp) as ((_ & _ & Hvar2 & _) & _).
  apply loadExpand_fields in Hexp. rewrite Hboundary in Hexp.
  destruct Hexp as (_ & _ & _ & Hsame).
  apply loadStat_Next_inv in Hstat as (_ & _ & Hvar3 & Hdeps3 & _).
  assert (Hev : expandVariable options file = expandVariable options f1).
  { unfold expandVariable. congruence. }
  rewrite Hev in Hno.
  assert (Hnone : (if expandVariable options f1 then inheritedContext options else None)
                  = None).
  { destruct Hno as [-> | ->]; [reflexivity |].
    destruct (expandVariable options f1); reflexivity. }
  destruct (Hsame Hnone) as (-> & _). rewrite Hdeps3.
  unfold readsContents in Hread.
  destruct (isJs absPath options); simpl in Hread; [| exact Hdeps1].
  destruct Hread as (text & Htext & Hcont & _).
  destruct Hdeps1 as (parsed & Hparsed & Hdeps1). rewrite Hcont in Hparsed.
  exists text, parsed. auto.
Qed.

(** X9: what a returned File retains of the text: nothing when
    [options.loadContent] is false, even though the file was read, and
    otherwise the text that [readFile] gave for a JS-like or JSON-like
    path. *)
Theorem load_contents_retention
    (workingDirectory request : string) (options : Options.t)
    (t : list Event) (file : File.t) :
  loader workingDirectory request options = (t, Fulfilled (Loaded file)) ->
  let absPath := Resolved.absPath (resolve resolver workingDirectory request) in
  (Options.loadContent options = false -> File.contents file = None)
  /\ (Options.loadContent options = true -> readsContents absPath options = true ->
      exists text, readFile absPath = Fulfilled text /\ File.contents file = Some text)
  /\ (Options.loadContent options = false -> readsContents absPath options = true ->
      In (EvReadFile absPath) t).
Proof.
  intros Hload absPath.
  apply load_Loaded_inv in Hload as (_ & t1 & f1 & t2 & f2 & t3 & Hsrc & Hexp & Hstat & ->).
  fold absPath in Hsrc.
  apply loadSource_Next_inv in Hsrc as (_ & _ & _ & _ & Hread & _).
  apply loadExpand_Next_inv in Hexp as ((_ & Hc2 & _) & _).
  apply loadStat_Next_inv in Hstat as (_ & _ & _ & _ & Hc3 & _).
  split; [| split].
  - intros Hno. rewrite Hc3, Hno. reflexivity.
  - intros Hyes Hreads. rewrite Hreads in Hread.
    destruct Hread as (text & Htext & Hcont & _).
    exists text. split; [exact Htext |]. rewrite Hc3, Hyes. congruence.
  - intros _ Hreads. rewrite Hreads in Hread.
    destruct Hread as (text & _ & _ & ->). right. right. left. reflexivity.
Qed.

(** X10: a failure to read the file is not caught: when the resolved path is
    JS-like or JSON-like and [readFile] rejects, the promise of [load]
    is rejected with that error, and nothing is parsed, expanded or
    stat'ed. *)
Theorem load_rejects_when_read_fails
    (workingDirectory request : string) (options : Options.t) (e : Js.Error) :
  let absPath := Resolved.absPath (resolve resolver workingDirectory request) in
  absPath <> "" ->
  readsContents absPath options = true ->
  readFile absPath = Rejected e ->
  loader workingDirectory request options
  = ([EvResolve workingDirectory request; EvCreateFile absPath; EvReadFile absPath],
     Rejected e).
Proof.
  intros absPath Habs Hreads Hread.
  assert (Htruthy : Js.truthy absPath = true).
  { destruct (Js.truthy absPath) eqn:Ht; [reflexivity |].
    apply truthy_false_iff in Ht. contradiction. }
  unfold load, loadBody. unfold bind at 1. fold absPath.
  rewrite Htruthy. simpl negb. cbv iota.
  unfold loadSource. rewrite Hreads. unfold await. rewrite Hread. reflexivity.
Qed.

(** X11: [load] returns a warning in two cases only: the request did not
    resolve, and the warning is that of the resolution; or the file is
    JS-like, was read, and the extractor threw, and the warning names the
    file. A failing file-system call never becomes a warning. *)
Theorem load_warning_origin
    (workingDirectory request : string) (options : Options.t) (w : string) :
  let r := resolve resolver workingDirectory request in
  let absPath := Resolved.absPath r in
  snd (loader workingDirectory request options) = Fulfilled (Warning w) ->
  (absPath = "" /\ w = Resolved.warning r)
  \/ (absPath <> ""
      /\ isJs absPath options = true
      /\ exists text e,
           readFile absPath = Fulfilled text
           /\ gatherDependencies (Some text) (Js.endsWith absPath ".mjs") = Rejected e
           /\ w = parseWarning absPath e).
Proof.
  intros r absPath. rewrite load_outcome. fold r. fold absPath.
  destruct (Js.truthy absPath) eqn:Htruthy.
  - assert (Habs : absPath <> "").
    { intros Hempty. apply truthy_false_iff in Hempty. congruence. }
    pose proof (loadSource_outcome absPath options) as Hsrc.
    destruct (snd (sourceOf absPath options)) as [f1 | w1 | e1].
    + pose proof (loadExpand_outcome request r options f1) as Hexp.
      destruct (snd (expansionOf request r options f1)) as [f2 | w2 | e2];
        [| contradiction | discriminate].
      pose proof (loadStat_outcome options f2) as Hstat.
      destruct (snd (statOf options f2)); [discriminate | contradiction | discriminate].
    + intros [= <-]. right. destruct Hsrc as (Hjs & Hparse). auto.
    + discriminate.
  - intros [= <-]. left. apply truthy_false_iff in Htruthy. auto.
Qed.

(** X12: when the promise of [load] is rejected, the error is one that a
    file-system call on the resolved path or a globby call rejected with:
    [load] throws nothing of its own. *)
Theorem load_rejection_origin
    (workingDirectory request : string) (options : Options.t) (e : Js.Error) :
  let absPath := Resolved.absPath (resolve resolver workingDirectory request) in
  snd (loader workingDirectory request options) = Rejected e ->
  readFile absPath = Rejected e
  \/ (exists patterns cwd, globby patterns cwd = Rejected e)
  \/ lstat absPath = Rejected e
  \/ realpath absPath = Rejected e
  \/ stat absPath = Rejected e.
Proof.
  intros absPath. rewrite load_outcome. fold absPath.
  destruct (Js.truthy absPath); [| discriminate].
  pose proof (loadSource_outcome absPath options) as Hsrc.
  destruct (sourceOf absPath options) as [t1 [f1 | w1 | e1]] eqn:Hsource; simpl in *.
  - apply loadSource_Next_inv in Hsource as (Habs1 & _).
    pose proof (loadExpand_outcome request
                  (resolve resolver workingDirectory request) options f1) as Hexp.
    destruct (expansionOf request _ options f1) as [t2 [f2 | w2 | e2]] eqn:Hexpansion;
      simpl in *.
    + apply loadExpand_Next_inv in Hexpansion as ((Habs2 & _) & _).
      pose proof (loadStat_outcome options f2) as Hstat.
      assert (Hf2 : File.absPath f2 = absPath) by congruence. rewrite Hf2 in Hstat.
      destruct (snd (statOf options f2)); [discriminate | contradiction |].
      intros [= <-]. tauto.
    + contradiction.
    + intros [= <-]. auto.
  - discriminate.
  - intros [= <-]. left. apply Hsrc.
Qed.

(** X13: a call of [load] calls globby at most twice, and at most once when
    it does not take the package branch, however the call ends. *)
Theorem load_globs_at_most_twice
    (workingDirectory request : string) (options : Options.t) :
  let r := resolve resolver workingDirectory request in
  (timesGlobbed (fst (loader workingDirectory request options)) <= 2)%nat
  /\ (packageBoundary isNodeModule request r = None ->
      (timesGlobbed (fst (loader workingDirectory request options)) <= 1)%nat).
Proof.
  intros r.
  assert (Hbound : (timesGlobbed (fst (loader workingDirectory request options))
                    <= match packageBoundary isNodeModule request r with
                       | Some _ => 2
                       | None => 1
                       end)%nat).
  { destruct (Js.truthy (Resolved.absPath r)) eqn:Htruthy.
    - destruct (sourceOf (Resolved.absPath r) options) as [t1 s1] eqn:Hsource.
      assert (Ht1 : timesGlobbed t1 = 0%nat).
      { pose proof (loadSource_trace (Resolved.absPath r) options) as Htrace.
        rewrite Hsource in Htrace. simpl in Htrace. subst t1.
        destruct (readsContents _ options); reflexivity. }
      destruct s1 as [f1 | w1 | e1].
      + rewrite (load_trace_from_source _ _ _ _ _ Htruthy Hsource). fold r.
        change (EvResolve workingDirectory request :: ?l)%list
          with ([EvResolve workingDirectory request] ++ l)%list.
        rewrite !timesGlobbed_app, Ht1.
        assert (Hstat : timesGlobbed
                          match snd (expansionOf request r options f1) with
                          | Next f2 => fst (statOf options f2)
                          | _ => []
                          end = 0%nat).
        { destruct (snd (expansionOf request r options f1)); [| reflexivity..].
          apply timesGlobbed_none, loadStat_trace. }
        rewrite Hstat.
        pose proof (loadExpand_globs request r options f1) as Hexp.
        replace (timesGlobbed [EvResolve workingDirectory request]) with 0%nat
          by reflexivity.
        rewrite Nat.add_0_r. exact Hexp.
      + assert (Hfst : fst (loader workingDirectory request options)
                       = (EvResolve workingDirectory request :: t1)%list).
        { unfold load. unfold loadBody. unfold bind at 1. fold r.
          rewrite Htruthy. simpl negb. cbv iota.
          unfold bind at 1. rewrite Hsource. reflexivity. }
        rewrite Hfst.
        change (EvResolve workingDirectory request :: t1)%list
          with ([EvResolve workingDirectory request] ++ t1)%list.
        rewrite timesGlobbed_app, Ht1.
        destruct (packageBoundary isNodeModule request r); unfold timesGlobbed; simpl; lia.
      + assert (Hfst : fst (loader workingDirectory request options)
                       = (EvResolve workingDirectory request :: t1)%list).
        { unfold load. unfold loadBody. unfold bind at 1. fold r.
          rewrite Htruthy. simpl negb. cbv iota.
          unfold bind at 1. rewrite Hsource. reflexivity. }
        rewrite Hfst.
        change (EvResolve workingDirectory request :: t1)%list
          with ([EvResolve workingDirectory request] ++ t1)%list.
        rewrite timesGlobbed_app, Ht1.
        destruct (packageBoundary isNodeModule request r); unfold timesGlobbed; simpl; lia.
    - assert (Hfst : fst (loader workingDirectory request options)
                     = [EvResolve workingDirectory request]).
      { unfold load. unfold loadBody. unfold bind at 1. fold r.
        rewrite Htruthy. reflexivity. }
      rewrite Hfst.
      destruct (packageBoundary isNodeModule request r); unfold timesGlobbed; simpl; lia. }
  split.
  - etransitivity; [exact Hbound |].
    destruct (packageBoundary isNodeModule request r); lia.
  - intros Hnone. rewrite Hnone in Hbound. exact Hbound.
Qed.

(** X14: for a file that is not JS-like the extractor is never consulted:
    [load] behaves the same whatever the extractor would do. *)
Theorem load_nonjs_ignores_parser
    (other : option string -> bool -> Settled ParseResult.t)
    (workingDirectory request : string) (options : Options.t) :
  isJs (Resolved.absPath (resolve resolver workingDirectory request)) options = false ->
  loader workingDirectory request options
  = load resolver readFile lstat stat realpath globby other
         isNodeModule ensureDottedRelative nodeModuleGlobs extraGlobs
         workingDirectory request options.
Proof.
  intros Hjs.
  assert (Hsource : sourceOf (Resolved.absPath (resolve resolver workingDirectory request))
                             options
                    = loadSource readFile other
                        (Resolved.absPath (resolve resolver workingDirectory request))
                        options).
  { unfold loadSource. rewrite Hjs. reflexivity. }
  unfold load, loadBody. unfold bind at 1 4. rewrite Hsource. reflexivity.
Qed.

(** X15: under [expand: 'none'] the only globbing [load] can do is for a
    package's extra asset globs: when there are none, globby is never
    called, however the call ends. *)
Theorem load_none_never_globs
    (workingDirectory request : string) (options : Options.t) :
  Options.expand options = ExpandNone ->
  (forall file, extraGlobs file = []) ->
  expansionRan (fst (loader workingDirectory request options)) = false.
Proof.
  intros Hmode Hextra.
  set (r := resolve resolver workingDirectory request).
  assert (Hexp : forall f1, fst (expansionOf request r options f1) = []).
  { intros f1. unfold loadExpand, expandVariable, expandAll. rewrite Hmode.
    change (ExpandMode_eqb ExpandNone ExpandVariable) with false.
    change (ExpandMode_eqb ExpandNone ExpandAll) with false.
    cbn [andb orb].
    destruct (packageBoundary isNodeModule request r) as [[pkg pkgPath] |];
      [| reflexivity].
    rewrite fst_bind. cbn [ret fst snd]. rewrite Hextra. reflexivity. }
  destruct (Js.truthy (Resolved.absPath r)) eqn:Htruthy.
  - destruct (sourceOf (Resolved.absPath r) options) as [t1 s1] eqn:Hsource.
    assert (Ht1 : expansionRan t1 = false).
    { pose proof (loadSource_trace (Resolved.absPath r) options) as Htrace.
      rewrite Hsource in Htrace. simpl in Htrace. subst t1.
      destruct (readsContents _ options); reflexivity. }
    assert (Hfst : (forall f1, s1 <> Next f1) ->
              fst (loader workingDirectory request options)
              = (EvResolve workingDirectory request :: t1)%list).
    { intros Hs. unfold load. unfold loadBody. unfold bind at 1. fold r.
      rewrite Htruthy. simpl negb. cbv iota.
      unfold bind at 1. rewrite Hsource.
      destruct s1 as [f1 | w1 | e1]; [| reflexivity..].
      destruct (Hs f1). reflexivity. }
    destruct s1 as [f1 | w1 | e1].
    + rewrite (load_trace_from_source _ _ _ _ _ Htruthy Hsource). fold r.
      rewrite Hexp. unfold expansionRan in *. simpl.
      rewrite existsb_app, Ht1. simpl.
      destruct (snd (expansionOf request r options f1)); [| reflexivity..].
      apply loadStat_trace.
    + rewrite Hfst by discriminate. exact Ht1.
    + rewrite Hfst by discriminate. exact Ht1.
  - unfold load. unfold loadBody. unfold bind at 1. fold r.
    rewrite Htruthy. reflexivity.
Qed.

End LoaderProperties.

(** ** The loader on the concrete world *)

Lemma resolved_exactly_one_meaningful_witness :
  answersProperly (World.resolver "/app" "nope")
  /\ answersProperly (World.resolver "/app" "pkg")
  /\ resolveSync World.resolver "/app" "nope"
     = Resolved.Make "" (Some "") None "Can't resolve 'nope' in '/app'"
  /\ resolve World.resolver "/app" "pkg"
     = Resolved.Make "/app/node_modules/pkg/lib/index.js"
                     (Some "/app/node_modules/pkg/package.json")
                     (Some World.pkgManifest) "".
Proof.
  split; [vm_compute; discriminate |]. split; [vm_compute; discriminate |].
  destruct (resolved_exactly_one_meaningful World.resolver World.resolver "/app" "nope")
    as ((Hfailed & _) & _).
  destruct (resolved_exactly_one_meaningful World.resolver World.resolver "/app" "pkg")
    as (_ & (_ & Hfound & _)).
  split; [exact (Hfailed _ eq_refl) | exact (Hfound eq_refl)].
Defined.

Lemma load_unresolved_returns_warning_witness :
  answersProperly (World.resolver "/app" "nope")
  /\ Resolved.absPath (resolve World.resolver "/app" "nope") = ""
  /\ exists warning,
       World.load "/app" "nope" defaultOptions
       = ([EvResolve "/app" "nope"], Fulfilled (Warning warning))
       /\ warning <> ""
       /\ warning = "Can't resolve 'nope' in '/app'".
Proof.
  assert (Hproper : answersProperly (World.resolver "/app" "nope"))
    by (vm_compute; discriminate).
  split; [exact Hproper |]. split; [reflexivity |].
  destruct (load_unresolved_returns_warning
              World.resolver World.readFile World.lstat World.stat World.realpath
              World.globby World.gatherDependencies World.isNodeModule
              World.ensureDottedRelative World.nodeModuleGlobs World.extraGlobs
              "/app" "nope" defaultOptions Hproper eq_refl)
    as (warning & Hload & Hne & Hw & _).
  exists warning. split; [exact Hload |]. split; [exact Hne | exact Hw].
Defined.

(** C2 on the code: [pkg] resolves to [lib/index.js] inside the package,
    so [fileDir] is the package's [lib] directory while [baseDir] is the
    package directory. The glob match [lib/index.js] is the file itself;
    its key relative to [fileDir] is [./index.js], the filter joins that
    key to [baseDir] instead, finds a different path and keeps the key:
    the File ends up depending on itself. *)
Theorem load_keeps_self_dependency :
  exists t file,
    World.load "/app" "pkg" World.expandAllOptions = (t, Fulfilled (Loaded file))
    /\ File.absPath file = "/app/node_modules/pkg/lib/index.js"
    /\ In (EvGlobby "/app/node_modules/pkg" ["lib/**"]) t
    /\ World.globby ["lib/**"] "/app/node_modules/pkg"
       = Fulfilled ["lib/index.js"; "lib/util.js"]
    /\ Path.join "/app/node_modules/pkg" "lib/index.js" = File.absPath file
    /\ World.ensureDottedRelative (Path.dirname (File.absPath file)) (File.absPath file)
       = "./index.js"
    /\ Path.join "/app/node_modules/pkg" "./index.js" <> File.absPath file
    /\ File.deps file !! "./index.js" = Some None
    /\ Path.join (Path.dirname (File.absPath file)) "./index.js" = File.absPath file.
Proof.
  eexists. eexists. split; [vm_compute; reflexivity |].
  repeat split; try (vm_compute; reflexivity).
  - vm_compute. tauto.
  - vm_compute. discriminate.
Qed.



Lemma expand_idempotent_witness :
  World.globby ["lib/**"] "/app/node_modules/pkg" = Fulfilled ["lib/index.js"; "lib/util.js"]
  /\ exists once,
       World.expand World.pkgEntry "/app/node_modules/pkg/lib" "/app/node_modules/pkg"
                    ["lib/**"]
       = ([EvGlobby "/app/node_modules/pkg" ["lib/**"]], Next once)
       /\ World.expand once "/app/node_modules/pkg/lib" "/app/node_modules/pkg" ["lib/**"]
          = ([EvGlobby "/app/node_modules/pkg" ["lib/**"]], Next once).
Proof.
  split; [reflexivity |].
  destruct (expand_idempotent
              World.globby World.ensureDottedRelative World.pkgEntry
              "/app/node_modules/pkg/lib" "/app/node_modules/pkg" ["lib/**"]
              ["lib/index.js"; "lib/util.js"] eq_refl)
    as (once & Hfirst & Hsecond & _).
  exists once. split; [exact Hfirst | exact Hsecond].
Defined.

(** C5, as stated, fails: loading [assets] without any expansion option
    still expands the package's extra asset globs, so glob-based expansion
    has run for the File, and yet [contextExpanded] is not set. *)
Lemma load_assets_expands_without_flag :
  exists t file,
    World.load "/app" "assets" defaultOptions = (t, Fulfilled (Loaded file))
    /\ t = [EvResolve "/app" "assets"; EvCreateFile "/app/node_modules/assets/index.js";
            EvReadFile "/app/node_modules/assets/index.js";
            EvGlobby "/app/node_modules/assets" ["*.svg"];
            EvLstat "/app/node_modules/assets/index.js"]
    /\ expansionRan t = true
    /\ File.deps file !! "./logo.svg" = Some None
    /\ File.contextExpanded file = false
    /\ ~ (File.contextExpanded file = true <-> expansionRan t = true).
Proof.
  eexists. eexists. split; [vm_compute; reflexivity |].
  repeat split; try (vm_compute; reflexivity).
  vm_compute. intros [_ H]. specialize (H eq_refl). discriminate H.
Qed.

Lemma load_marks_expansion_once_witness :
  exists t file,
    World.load "/app" "pkg" World.expandAllOptions = (t, Fulfilled (Loaded file))
    /\ (timesMarked t <= 1)%nat
    /\ (File.contextExpanded file = true <-> timesMarked t = 1%nat)
    /\ (File.contextExpanded file = true <->
        expandsModuleGlobs World.isNodeModule "pkg" (resolve World.resolver "/app" "pkg")
                           World.expandAllOptions file = true)
    /\ (File.contextExpanded file = true -> expansionRan t = true).
Proof.
  eexists. eexists. split; [vm_compute; reflexivity |].
  apply (load_marks_expansion_once
           World.resolver World.readFile World.lstat World.stat World.realpath
           World.globby World.gatherDependencies World.isNodeModule
           World.ensureDottedRelative World.nodeModuleGlobs World.extraGlobs
           "/app" "pkg" World.expandAllOptions).
  vm_compute. reflexivity.
Defined.

Lemma load_parse_failure_returns_warning_witness :
  Resolved.absPath (resolve World.resolver "/app" "./broken.js") <> ""
  /\ isJs "/app/broken.js" defaultOptions = true
  /\ World.readFile "/app/broken.js" = Fulfilled "require("
  /\ World.gatherDependencies (Some "require(") false
     = Rejected (Js.MkError "Unexpected token" "SyntaxError: [1:8]: Unexpected token")
  /\ snd (World.load "/app" "./broken.js" defaultOptions)
     = Fulfilled (Warning ("Error parsing file: " +:+ Js.quote +:+ "/app/broken.js"
                           +:+ Js.quote +:+ Js.newline
                           +:+ "SyntaxError: [1:8]: Unexpected token")).
Proof.
  assert (Hpath : Resolved.absPath (resolve World.resolver "/app" "./broken.js") <> "")
    by (vm_compute; discriminate).
  split; [exact Hpath |]. split; [reflexivity |]. split; [reflexivity |].
  split; [reflexivity |].
  exact (proj1 (load_parse_failure_returns_warning
                  World.resolver World.readFile World.lstat World.stat World.realpath
                  World.globby World.gatherDependencies World.isNodeModule
                  World.ensureDottedRelative World.nodeModuleGlobs World.extraGlobs
                  "/app" "./broken.js" defaultOptions "require("
                  (Js.MkError "Unexpected token" "SyntaxError: [1:8]: Unexpected token")
                  Hpath eq_refl eq_refl eq_refl)).
Defined.

Lemma load_expansion_trigger_witness :
  Resolved.absPath (resolve World.resolver "/app" "pkg") <> ""
  /\ (exists t1 f1,
        loadSource World.readFile World.gatherDependencies
                   "/app/node_modules/pkg/lib/index.js" World.expandAllOptions
        = (t1, Next f1)
        /\ expandVariable World.expandAllOptions f1 = false
        /\ exists rest,
             fst (World.load "/app" "pkg" World.expandAllOptions)
             = (EvResolve "/app" "pkg"
                :: t1 ++ EvGlobby "/app/node_modules/pkg" ["lib/**"] :: rest)%list).
Proof.
  assert (Hpath : Resolved.absPath (resolve World.resolver "/app" "pkg") <> "")
    by (vm_compute; discriminate).
  split; [exact Hpath |].
  eexists. eexists. split; [vm_compute; reflexivity |].
  split; [vm_compute; reflexivity |].
  destruct (load_expansion_trigger
              World.resolver World.readFile World.lstat World.stat World.realpath
              World.globby World.gatherDependencies World.isNodeModule
              World.ensureDottedRelative World.nodeModuleGlobs World.extraGlobs
              "/app" "pkg" World.expandAllOptions _ _ Hpath
              ltac:(vm_compute; reflexivity))
    as (_ & _ & Hpackage & _).
  destruct (Hpackage World.pkgManifest "/app/node_modules/pkg/package.json"
                     ltac:(vm_compute; reflexivity))
    as (Hrequested & _).
  apply Hrequested. left. reflexivity.
Defined.

Lemma load_records_symlink_witness :
  exists t file,
    World.load "/app" "./link.js" defaultOptions = (t, Fulfilled (Loaded file))
    /\ File.absPath file = "/app/link.js"
    /\ exists stats,
         World.lstat "/app/link.js" = Fulfilled stats
         /\ File.size file = Stats.size stats
         /\ if Stats.isSymbolicLink stats
            then exists target targetStats,
                   World.realpath "/app/link.js" = Fulfilled target
                   /\ World.stat "/app/link.js" = Fulfilled targetStats
                   /\ File.realPath file = Some target
                   /\ File.realSize file = Some (Stats.size targetStats)
            else File.realPath file = None /\ File.realSize file = None.
Proof.
  eexists. eexists. split; [vm_compute; reflexivity |].
  exact (load_records_symlink
           World.resolver World.readFile World.lstat World.stat World.realpath
           World.globby World.gatherDependencies World.isNodeModule
           World.ensureDottedRelative World.nodeModuleGlobs World.extraGlobs
           "/app" "./link.js" defaultOptions _ _ ltac:(vm_compute; reflexivity)).
Defined.

Lemma load_reads_contents_iff_witness :
  exists t file,
    World.load "/app" "./datajson" defaultOptions = (t, Fulfilled (Loaded file))
    /\ contentsRead t = true
    /\ In (EvReadFile "/app/datajson") t.
Proof.
  eexists. eexists. split; [vm_compute; reflexivity |].
  destruct (load_reads_contents_iff
              World.resolver World.readFile World.lstat World.stat World.realpath
              World.globby World.gatherDependencies World.isNodeModule
              World.ensureDottedRelative World.nodeModuleGlobs World.extraGlobs
              "/app" "./datajson" defaultOptions _ _ ltac:(vm_compute; reflexivity))
    as (Hiff & Hin & _).
  assert (Hread : contentsRead
                    [EvResolve "/app" "./datajson"; EvCreateFile "/app/datajson";
                     EvReadFile "/app/datajson"; EvLstat "/app/datajson"] = true).
  { apply Hiff. right. right. right. exists "/app/data". reflexivity. }
  split; [exact Hread | exact (Hin Hread)].
Defined.

(** The entry file of the application under the default options: its two
    static imports, unresolved, and no globbing. *)
Example load_entry_without_expansion :
  exists file,
    World.load "/app" "./index.js" defaultOptions
    = ([EvResolve "/app" "./index.js"; EvCreateFile "/app/index.js";
        EvReadFile "/app/index.js"; EvLstat "/app/index.js"],
       Fulfilled (Loaded file))
    /\ File.deps file = {[ "./a" := None; "lodash" := None ]}
    /\ File.contextExpanded file = false.
Proof.
  eexists. split; [vm_compute; reflexivity |].
  split; [vm_compute; reflexivity | reflexivity].
Qed.

(** ** Further runs on the concrete world *)


Lemma expand_key_provenance_witness :
  World.globby ["lib/**"] "/app/node_modules/pkg" = Fulfilled ["lib/index.js"; "lib/util.js"]
  /\ exists file',
       World.expand World.pkgEntry "/app/node_modules/pkg/lib"
                    "/app/node_modules/pkg" ["lib/**"]
       = ([EvGlobby "/app/node_modules/pkg" ["lib/**"]], Next file')
       /\ (is_Some (File.deps file' !! "lodash") -> False).
Proof.
  split; [reflexivity |].
  destruct (expand_key_provenance
              World.globby World.ensureDottedRelative World.pkgEntry
              "/app/node_modules/pkg/lib" "/app/node_modules/pkg" ["lib/**"]
              ["lib/index.js"; "lib/util.js"] eq_refl)
    as (file' & Hrun & Hfrom).
  exists file'. split; [exact Hrun |].
  intros Hkey. destruct (Hfrom "lodash" Hkey) as [Hold | [Hglob | Hdecl]].
  - destruct Hold as [v Hv]. vm_compute in Hv. discriminate Hv.
  - destruct Hglob as (dep & Hdep & Hkey' & _).
    destruct Hdep as [<- | [<- | []]]; vm_compute in Hkey'; discriminate Hkey'.
  - destruct Hdecl as (manifest & declared & Hpkg & Hdecl & [v Hv]).
    injection Hpkg as <-. injection Hdecl as <-. vm_compute in Hv. discriminate Hv.
Defined.

Lemma expand_inserts_glob_matches_witness :
  World.globby ["lib/**"] "/app/node_modules/pkg" = Fulfilled ["lib/index.js"; "lib/util.js"]
  /\ exists file',
       World.expand World.pkgEntry "/app/node_modules/pkg/lib"
                    "/app/node_modules/pkg" ["lib/**"]
       = ([EvGlobby "/app/node_modules/pkg" ["lib/**"]], Next file')
       /\ File.deps file' !! "./util.js" = Some None.
Proof.
  split; [reflexivity |].
  destruct (expand_inserts_glob_matches
              World.globby World.ensureDottedRelative World.pkgEntry
              "/app/node_modules/pkg/lib" "/app/node_modules/pkg" ["lib/**"]
              ["lib/index.js"; "lib/util.js"] eq_refl)
    as (file' & Hrun & Hmatches).
  exists file'. split; [exact Hrun |].
  destruct (Hmatches "lib/util.js") as (_ & Hordinary & _).
  - right. left. reflexivity.
  - vm_compute. discriminate.
  - refine (proj2 (Hordinary _) _).
    + vm_compute. reflexivity.
    + vm_compute. reflexivity.
Defined.

Lemma expandDeps_order_irrelevant_witness :
  (forall dep, In dep ["lib/index.js"; "lib/util.js"]
               <-> In dep ["lib/util.js"; "lib/index.js"; "lib/util.js"])
  /\ expandDeps World.ensureDottedRelative World.pkgEntry "/app/node_modules/pkg/lib"
                "/app/node_modules/pkg" ["lib/index.js"; "lib/util.js"]
     = expandDeps World.ensureDottedRelative World.pkgEntry "/app/node_modules/pkg/lib"
                  "/app/node_modules/pkg" ["lib/util.js"; "lib/index.js"; "lib/util.js"].
Proof.
  assert (Hsame : forall dep, In dep ["lib/index.js"; "lib/util.js"]
                              <-> In dep ["lib/util.js"; "lib/index.js"; "lib/util.js"]).
  { intros dep. simpl. tauto. }
  split; [exact Hsame |].
  exact (expandDeps_order_irrelevant World.ensureDottedRelative World.pkgEntry
           "/app/node_modules/pkg/lib" "/app/node_modules/pkg" _ _ Hsame).
Defined.

Lemma load_package_and_moduleRoot_witness :
  exists t file,
    World.load "/app" "pkg" defaultOptions = (t, Fulfilled (Loaded file))
    /\ File.package file = Some World.pkgManifest
    /\ File.moduleRoot file = Some "/app/node_modules/pkg".
Proof.
  eexists. eexists. split; [vm_compute; reflexivity |].
  exact (load_package_and_moduleRoot
           World.resolver World.readFile World.lstat World.stat World.realpath
           World.globby World.gatherDependencies World.isNodeModule
           World.ensureDottedRelative World.nodeModuleGlobs World.extraGlobs
           "/app" "pkg" defaultOptions _ _ ltac:(vm_compute; reflexivity)).
Defined.

Lemma load_tracks_manifest_witness :
  exists t file,
    World.load "/app" "pkg" World.expandAllOptions = (t, Fulfilled (Loaded file))
    /\ packageBoundary World.isNodeModule "pkg" (resolve World.resolver "/app" "pkg")
       = Some (World.pkgManifest, "/app/node_modules/pkg/package.json")
    /\ File.deps file !! "../package.json" = Some None.
Proof.
  eexists. eexists. split; [vm_compute; reflexivity |].
  split; [vm_compute; reflexivity |].
  exact (load_tracks_manifest
           World.resolver World.readFile World.lstat World.stat World.realpath
           World.globby World.gatherDependencies World.isNodeModule
           World.ensureDottedRelative World.nodeModuleGlobs World.extraGlobs
           "/app" "pkg" World.expandAllOptions _ _ World.pkgManifest
           "/app/node_modules/pkg/package.json"
           ltac:(vm_compute; reflexivity) ltac:(vm_compute; reflexivity)).
Defined.

Lemma load_keeps_static_imports_witness :
  exists t file,
    World.load "/app" "./index.js" defaultOptions = (t, Fulfilled (Loaded file))
    /\ isJs "/app/index.js" defaultOptions = true
    /\ File.deps file !! "lodash" = Some None.
Proof.
  eexists. eexists. split; [vm_compute; reflexivity |].
  split; [reflexivity |].
  destruct (load_keeps_static_imports
              World.resolver World.readFile World.lstat World.stat World.realpath
              World.globby World.gatherDependencies World.isNodeModule
              World.ensureDottedRelative World.nodeModuleGlobs World.extraGlobs
              "/app" "./index.js" defaultOptions _ _
              ltac:(vm_compute; reflexivity) eq_refl)
    as (text & parsed & Htext & Hparsed & Hkeys).
  assert (Hkey : ParseResult.deps parsed !! "lodash" = Some None).
  { vm_compute in Htext. injection Htext as <-.
    vm_compute in Hparsed. injection Hparsed as <-.
    vm_compute. reflexivity. }
  destruct (Hkeys "lodash" None Hkey) as [Hdep | (pkg & pkgPath & Hboundary & _)].
  - exact Hdep.
  - vm_compute in Hboundary. discriminate Hboundary.
Defined.

Lemma load_static_imports_only_witness :
  exists t file,
    World.load "/app" "./index.js" defaultOptions = (t, Fulfilled (Loaded file))
    /\ packageBoundary World.isNodeModule "./index.js"
         (resolve World.resolver "/app" "./index.js") = None
    /\ expandVariable defaultOptions file = false
    /\ exists text parsed,
         World.readFile "/app/index.js" = Fulfilled text
         /\ World.gatherDependencies (Some text) false = Fulfilled parsed
         /\ File.deps file = ParseResult.deps parsed.
Proof.
  eexists. eexists. split; [vm_compute; reflexivity |].
  split; [reflexivity |]. split; [reflexivity |].
  exact (load_static_imports_only
           World.resolver World.readFile World.lstat World.stat World.realpath
           World.globby World.gatherDependencies World.isNodeModule
           World.ensureDottedRelative World.nodeModuleGlobs World.extraGlobs
           "/app" "./index.js" defaultOptions _ _
           ltac:(vm_compute; reflexivity) eq_refl (or_introl eq_refl)).
Defined.

Lemma load_contents_retention_witness :
  exists t file,
    World.load "/app" "./index.js" (Options.Make false ExpandNone false None)
    = (t, Fulfilled (Loaded file))
    /\ File.contents file = None
    /\ In (EvReadFile "/app/index.js") t.
Proof.
  eexists. eexists. split; [vm_compute; reflexivity |].
  destruct (load_contents_retention
              World.resolver World.readFile World.lstat World.stat World.realpath
              World.globby World.gatherDependencies World.isNodeModule
              World.ensureDottedRelative World.nodeModuleGlobs World.extraGlobs
              "/app" "./index.js" (Options.Make false ExpandNone false None) _ _
              ltac:(vm_compute; reflexivity))
    as (Hdropped & _ & Hread).
  split; [exact (Hdropped eq_refl) | exact (Hread eq_refl eq_refl)].
Defined.

Lemma load_rejects_when_read_fails_witness :
  Resolved.absPath (resolve World.staleResolver "/app" "./gone.js") <> ""
  /\ readsContents "/app/gone.js" defaultOptions = true
  /\ World.readFile "/app/gone.js" = Rejected (World.enoent "/app/gone.js")
  /\ load World.staleResolver World.readFile World.lstat World.stat World.realpath
          World.globby World.gatherDependencies World.isNodeModule
          World.ensureDottedRelative World.nodeModuleGlobs World.extraGlobs
          "/app" "./gone.js" defaultOptions
     = ([EvResolve "/app" "./gone.js"; EvCreateFile "/app/gone.js";
         EvReadFile "/app/gone.js"],
        Rejected (World.enoent "/app/gone.js")).
Proof.
  assert (Hpath : Resolved.absPath (resolve World.staleResolver "/app" "./gone.js") <> "")
    by (vm_compute; discriminate).
  split; [exact Hpath |]. split; [reflexivity |]. split; [reflexivity |].
  exact (load_rejects_when_read_fails
           World.staleResolver World.readFile World.lstat World.stat World.realpath
           World.globby World.gatherDependencies World.isNodeModule
           World.ensureDottedRelative World.nodeModuleGlobs World.extraGlobs
           "/app" "./gone.js" defaultOptions (World.enoent "/app/gone.js")
           Hpath eq_refl eq_refl).
Defined.

Lemma load_warning_origin_witness :
  snd (World.load "/app" "./broken.js" defaultOptions)
  = Fulfilled (Warning (parseWarning "/app/broken.js"
                          (Js.MkError "Unexpected token"
                                      "SyntaxError: [1:8]: Unexpected token")))
  /\ isJs "/app/broken.js" defaultOptions = true.
Proof.
  assert (Hload : snd (World.load "/app" "./broken.js" defaultOptions)
                  = Fulfilled (Warning (parseWarning "/app/broken.js"
                                          (Js.MkError "Unexpected token"
                                             "SyntaxError: [1:8]: Unexpected token"))))
    by (vm_compute; reflexivity).
  split; [exact Hload |].
  destruct (load_warning_origin
              World.resolver World.readFile World.lstat World.stat World.realpath
              World.globby World.gatherDependencies World.isNodeModule
              World.ensureDottedRelative World.nodeModuleGlobs World.extraGlobs
              "/app" "./broken.js" defaultOptions _ Hload)
    as [(Hempty & _) | (_ & Hjs & _)].
  - vm_compute in Hempty. discriminate Hempty.
  - exact Hjs.
Defined.

Lemma load_rejection_origin_witness :
  snd (load World.staleResolver World.readFile World.lstat World.stat World.realpath
            World.globby World.gatherDependencies World.isNodeModule
            World.ensureDottedRelative World.nodeModuleGlobs World.extraGlobs
            "/app" "./gone.js" defaultOptions)
  = Rejected (World.enoent "/app/gone.js")
  /\ (World.readFile "/app/gone.js" = Rejected (World.enoent "/app/gone.js")
      \/ (exists patterns cwd,
            World.globby patterns cwd = Rejected (World.enoent "/app/gone.js"))
      \/ World.lstat "/app/gone.js" = Rejected (World.enoent "/app/gone.js")
      \/ World.realpath "/app/gone.js" = Rejected (World.enoent "/app/gone.js")
      \/ World.stat "/app/gone.js" = Rejected (World.enoent "/app/gone.js")).
Proof.
  assert (Hload : snd (load World.staleResolver World.readFile World.lstat World.stat
                            World.realpath World.globby World.gatherDependencies
                            World.isNodeModule World.ensureDottedRelative
                            World.nodeModuleGlobs World.extraGlobs
                            "/app" "./gone.js" defaultOptions)
                  = Rejected (World.enoent "/app/gone.js"))
    by (vm_compute; reflexivity).
  split; [exact Hload |].
  exact (load_rejection_origin
           World.staleResolver World.readFile World.lstat World.stat World.realpath
           World.globby World.gatherDependencies World.isNodeModule
           World.ensureDottedRelative World.nodeModuleGlobs World.extraGlobs
           "/app" "./gone.js" defaultOptions _ Hload).
Defined.

Lemma load_nonjs_ignores_parser_witness :
  isJs (Resolved.absPath (resolve World.resolver "/app" "./datajson")) defaultOptions = false
  /\ World.load "/app" "./datajson" defaultOptions
     = load World.resolver World.readFile World.lstat World.stat World.realpath
            World.globby World.failingParser World.isNodeModule
            World.ensureDottedRelative World.nodeModuleGlobs World.extraGlobs
            "/app" "./datajson" defaultOptions.
Proof.
  split; [reflexivity |].
  exact (load_nonjs_ignores_parser
           World.resolver World.readFile World.lstat World.stat World.realpath
           World.globby World.gatherDependencies World.isNodeModule
           World.ensureDottedRelative World.nodeModuleGlobs World.extraGlobs
           World.failingParser "/app" "./datajson" defaultOptions eq_refl).
Defined.

Lemma load_none_never_globs_witness :
  Options.expand defaultOptions = ExpandNone
  /\ expansionRan
       (fst (load World.resolver World.readFile World.lstat World.stat World.realpath
                  World.globby World.gatherDependencies World.isNodeModule
                  World.ensureDottedRelative World.nodeModuleGlobs (fun _ => [])
                  "/app" "pkg" defaultOptions)) = false.
Proof.
  split; [reflexivity |].
  exact (load_none_never_globs
           World.resolver World.readFile World.lstat World.stat World.realpath
           World.globby World.gatherDependencies World.isNodeModule
           World.ensureDottedRelative World.nodeModuleGlobs (fun _ => [])
           "/app" "pkg" defaultOptions eq_refl (fun _ => eq_refl)).
Defined.

(** A helper that named a glob match [constructor] would have the
    expansion store the inherited member under that key, not [null]. *)
Example expand_glob_key_named_constructor :
  exists file',
    expand World.globby (fun _ _ => "constructor") World.pkgEntry
           "/app/node_modules/pkg/lib" "/app/node_modules/pkg" ["lib/**"]
    = ([EvGlobby "/app/node_modules/pkg" ["lib/**"]], Next file')
    /\ File.deps World.pkgEntry !! "constructor" = None
    /\ File.deps file' !! "constructor" = Some (Some (PrototypeMember "constructor")).
Proof.
  eexists. split; [vm_compute; reflexivity |].
  split; vm_compute; reflexivity.
Qed.
